(** * SBOM_AUTO_CHECKER: the vulnerability correlation engine

    A shallow embedding of the Python back end (backend/app) and the
    properties its specification states about it.

    Python values are modelled as follows.
    - [str] is a Rocq [string]; [in], [split], [==] and the regular
      expressions of the scanner act on it character by character.
      [str.lower] is the only operation that depends on the Unicode
      tables; it is the method of the class [StrLower], with the ASCII
      table as an instance.
    - [packaging.version] is a third-party library: the scanner only
      parses strings and compares the results, which is the interface
      [PkgVersion]; the instance [release_version] is the release-segment
      fragment of PEP 440 ([N(.N)*]).
    - A dictionary with string keys and counts is a [gmap string nat], a
      set of strings a [gset string]; a decoded JSON document is a [json].
    - A raised exception is the [None] / [Raise] branch of a result.
    - Code that uses the SQLAlchemy session is a function from the
      session to a result and the session it leaves ([database.db]).
    - What the outside world does (the decoders of the standard library,
      the Trivy subprocess, the clock) is an argument or a class. *)

From Stdlib Require Import String Ascii List ZArith Bool Lia.
From stdpp Require Import base option list gmap strings.

Local Open Scope string_scope.
Local Open Scope list_scope.

(** ** Python string primitives *)

Module pystr.

(** [sub in s] *)
Fixpoint str_in (sub s : string) : bool :=
  String.prefix sub s ||
  match s with
  | EmptyString => false
  | String _ s' => str_in sub s'
  end.

(** [s.split(sep)] for a one-character separator *)
Fixpoint str_split (sep : ascii) (s : string) : list string :=
  match s with
  | EmptyString => [EmptyString]
  | String c s' =>
      if Ascii.eqb c sep then EmptyString :: str_split sep s'
      else match str_split sep s' with
           | x :: r => String c x :: r
           | [] => [String c EmptyString]
           end
  end.

Definition is_lower_az (c : ascii) : bool :=
  let n := nat_of_ascii c in (97 <=? n)%nat && (n <=? 122)%nat.

Definition is_upper_az (c : ascii) : bool :=
  let n := nat_of_ascii c in (65 <=? n)%nat && (n <=? 90)%nat.

Definition is_digit (c : ascii) : bool :=
  let n := nat_of_ascii c in (48 <=? n)%nat && (n <=? 57)%nat.

(** the character class [a-z0-9] *)
Definition is_az09 (c : ascii) : bool := is_lower_az c || is_digit c.

Definition underscore : ascii := "_"%char.

(** [re.sub(r'[^a-z0-9]', '_', s)] *)
Fixpoint re_sub_non_az09 (s : string) : string :=
  match s with
  | EmptyString => EmptyString
  | String c s' =>
      String (if is_az09 c then c else underscore) (re_sub_non_az09 s')
  end.

(** [re.sub(r'_+', '_', s)]: [prev] tells that the character before [s]
    was an underscore, whose run has already been replaced. *)
Fixpoint collapse_underscores (prev : bool) (s : string) : string :=
  match s with
  | EmptyString => EmptyString
  | String c s' =>
      if Ascii.eqb c underscore then
        if prev then collapse_underscores true s'
        else String underscore (collapse_underscores true s')
      else String c (collapse_underscores false s')
  end.

Definition re_sub_underscores (s : string) : string :=
  collapse_underscores false s.

(** [s.lstrip('_')] *)
Fixpoint lstrip_underscore (s : string) : string :=
  match s with
  | EmptyString => EmptyString
  | String c s' =>
      if Ascii.eqb c underscore then lstrip_underscore s' else s
  end.

(** [s.rstrip('_')] *)
Fixpoint rstrip_underscore (s : string) : string :=
  match s with
  | EmptyString => EmptyString
  | String c s' =>
      match rstrip_underscore s' with
      | EmptyString =>
          if Ascii.eqb c underscore then EmptyString
          else String c EmptyString
      | r => String c r
      end
  end.

(** [s.strip('_')] *)
Definition strip_underscore (s : string) : string :=
  rstrip_underscore (lstrip_underscore s).

(** The ASCII part of [str.lower]. *)
Definition ascii_lower_char (c : ascii) : ascii :=
  if is_upper_az c then ascii_of_nat (nat_of_ascii c + 32) else c.

Fixpoint ascii_lower (s : string) : string :=
  match s with
  | EmptyString => EmptyString
  | String c s' => String (ascii_lower_char c) (ascii_lower s')
  end.

(** Truthiness of an [Optional[str]]: [None] and [''] are both false. *)
Definition truthy (o : option string) : option string :=
  match o with
  | Some EmptyString => None
  | _ => o
  end.

End pystr.

(** [str.lower] *)
Class StrLower := str_lower : string -> string.

(** [packaging.version]: [pkg_version.parse] raises [InvalidVersion] ([None] here) or
    returns a [Version]; versions are totally ordered by their key. *)
Class PkgVersion := {
  Version : Type;
  pkg_version_parse : string -> option Version;
  vcompare : Version -> Version -> comparison
}.

Section version_ops.
Context `{PkgVersion}.

Definition vlt (a b : Version) : bool :=
  match vcompare a b with Lt => true | _ => false end.
Definition vle (a b : Version) : bool :=
  match vcompare a b with Gt => false | _ => true end.
Definition vgt (a b : Version) : bool :=
  match vcompare a b with Gt => true | _ => false end.
Definition vge (a b : Version) : bool :=
  match vcompare a b with Lt => false | _ => true end.
End version_ops.

(** The ASCII table as [str.lower]. *)
Definition ascii_str_lower : StrLower := pystr.ascii_lower.

(** The release-segment fragment of PEP 440: a version is [N(.N)*], its
    key is the tuple of segments without trailing zeros, and keys compare
    as Python tuples do. *)
Module release.
Import pystr.

Fixpoint digits_to_N (acc : N) (s : string) : option N :=
  match s with
  | EmptyString => Some acc
  | String c s' =>
      if is_digit c
      then digits_to_N (acc * 10 + N.of_nat (nat_of_ascii c - 48)) s'
      else None
  end.

Definition segment (s : string) : option N :=
  match s with
  | EmptyString => None
  | _ => digits_to_N 0 s
  end.

Fixpoint strip_trailing_zeros (l : list N) : list N :=
  match l with
  | [] => []
  | x :: r =>
      match strip_trailing_zeros r with
      | [] => if (x =? 0)%N then [] else [x]
      | r' => x :: r'
      end
  end.

Definition parse_release (s : string) : option (list N) :=
  strip_trailing_zeros <$> mapM segment (str_split "." s).

Fixpoint compare_key (a b : list N) : comparison :=
  match a, b with
  | [], [] => Eq
  | [], _ :: _ => Lt
  | _ :: _, [] => Gt
  | x :: a', y :: b' =>
      match (x ?= y)%N with
      | Eq => compare_key a' b'
      | c => c
      end
  end.
End release.

Definition release_version : PkgVersion :=
  {| Version := list N;
     pkg_version_parse := release.parse_release;
     vcompare := release.compare_key |}.

(** ** Exceptions and JSON values *)

(** The exception classes the back end raises or catches. [str(e)] of an
    exception raised by the interpreter or by a library is represented by
    the name of its class. *)
Inductive exn :=
| Exception (msg : string)
| SBOMParserException (msg : string)
| JSONDecodeError
| UnicodeDecodeError
| ParseError
| TypeError
| AttributeError
| KeyError
| ValueError
| TimeoutExpired
| OSError
| DataError
| IntegrityError
| PendingRollbackError.

Definition exn_str (e : exn) : string :=
  match e with
  | Exception msg => msg
  | SBOMParserException msg => msg
  | JSONDecodeError => "JSONDecodeError"
  | UnicodeDecodeError => "UnicodeDecodeError"
  | ParseError => "ParseError"
  | TypeError => "TypeError"
  | AttributeError => "AttributeError"
  | KeyError => "KeyError"
  | ValueError => "ValueError"
  | TimeoutExpired => "TimeoutExpired"
  | OSError => "OSError"
  | DataError => "DataError"
  | IntegrityError => "IntegrityError"
  | PendingRollbackError => "PendingRollbackError"
  end.

Inductive result (A : Type) :=
| Ok (a : A)
| Raise (e : exn).
Arguments Ok {A} a.
Arguments Raise {A} e.

Definition result_bind {A B} (r : result A) (k : A -> result B) : result B :=
  match r with
  | Ok a => k a
  | Raise e => Raise e
  end.

(** [try: r except Exception as e: h e] *)
Definition result_catch {A} (r : result A) (h : exn -> result A) : result A :=
  match r with
  | Ok a => Ok a
  | Raise e => h e
  end.

Declare Scope result_scope.
Delimit Scope result_scope with result.
Notation "'let*' x ':=' r 'in' k" := (result_bind r (fun x => k))
  (at level 10, x pattern, r at level 100, k at level 200) : result_scope.

#[warnings="-register-all"] Inductive json :=
| JNull
| JBool (b : bool)
| JNumber (n : Z)
| JString (s : string)
| JArray (items : list json)
| JObject (members : list (string * json)).

(** [xml.etree.ElementTree.Element] *)
#[warnings="-register-all"] Inductive Element :=
| mkElement (tag : string) (attrib : list (string * string))
            (text : option string) (children : list Element).

Definition tag (e : Element) : string :=
  match e with mkElement t _ _ _ => t end.

(** The decoders of the standard library: [bytes.decode('utf-8')],
    [json.loads], [ET.fromstring]. [None] is their exception
    ([UnicodeDecodeError], [JSONDecodeError], [ET.ParseError]). *)
Class Decoders := {
  utf8_decode : string -> option string;
  json_loads : string -> option json;
  ET_fromstring : string -> option Element
}.

Module pyjson.
Import pystr.

Fixpoint dict_get (members : list (string * json)) (key : string) : option json :=
  match members with
  | [] => None
  | (k, v) :: rest => if String.eqb k key then Some v else dict_get rest key
  end.

Definition is_string (key : string) (v : json) : bool :=
  match v with
  | JString s => String.eqb s key
  | _ => false
  end.

(** [key in data] for a string [key] *)
Definition contains (key : string) (data : json) : result bool :=
  match data with
  | JObject members => Ok (bool_decide (is_Some (dict_get members key)))
  | JArray items => Ok (existsb (is_string key) items)
  | JString s => Ok (str_in key s)
  | _ => Raise TypeError
  end.

(** [data[key]] for a string [key] *)
Definition getitem (data : json) (key : string) : result json :=
  match data with
  | JObject members =>
      match dict_get members key with
      | Some v => Ok v
      | None => Raise KeyError
      end
  | _ => Raise TypeError
  end.

(** [data.get(key, default)] *)
Definition get (data : json) (key : string) (default : json) : result json :=
  match data with
  | JObject members => Ok (from_option id default (dict_get members key))
  | _ => Raise AttributeError
  end.

(** [len(v)]; the members of an object have distinct keys *)
Definition len (v : json) : result nat :=
  match v with
  | JArray items => Ok (length items)
  | JObject members => Ok (length members)
  | JString s => Ok (String.length s)
  | _ => Raise TypeError
  end.

(** the truth value of [v] *)
Definition truth (v : json) : bool :=
  match v with
  | JNull => false
  | JBool b => b
  | JNumber n => negb (n =? 0)%Z
  | JString s => negb (String.eqb s "")
  | JArray items => negb (bool_decide (items = []))
  | JObject members => negb (bool_decide (members = []))
  end.

(** [s.replace('Z', '+00:00')] *)
Fixpoint replace_Z (s : string) : string :=
  match s with
  | EmptyString => EmptyString
  | String c s' =>
      if Ascii.eqb c "Z" then ("+00:00" ++ replace_Z s')%string
      else String c (replace_Z s')
  end.

(** [s.endswith(suffix)] *)
Fixpoint endswith (s suffix : string) : bool :=
  String.eqb s suffix ||
  match s with
  | EmptyString => false
  | String _ s' => endswith s' suffix
  end.
End pyjson.

(** ** backend/app/services/sbom_parser.py *)

Module sbom_parser.
Import pystr pyjson.
Local Open Scope result_scope.

Record Component := {
  name : string;
  version : string;
  purl : option string;
  component_type : option string
}.

(** The extractor call a parse ends in. *)
Inductive extractor_call :=
| CycloneDXParser_parse_json (data : json)
| SPDXParser_parse_json (data : json)
| CycloneDXParser_parse_xml (root : Element)
| SPDXParser_parse_xml (root : Element).

Section defs.
Context `{StrLower} `{Decoders}.

(** [_parse_json] after [json.loads]: the inspection of [data]. *)
Definition route_json (data : json) : result extractor_call :=
  let* has_bom := contains "bomFormat" data in
  let* is_cyclonedx :=
    if has_bom : bool
    then let* fmt := getitem data "bomFormat" in
         Ok (is_string "CycloneDX" fmt)
    else Ok false in
  if is_cyclonedx : bool then Ok (CycloneDXParser_parse_json data)
  else
    let* has_spdx := contains "spdxVersion" data in
    if has_spdx : bool then Ok (SPDXParser_parse_json data)
    else Raise (SBOMParserException "Unknown SBOM format in JSON").

Definition _parse_json (content : string) : result extractor_call :=
  match utf8_decode content with
  | None => Raise UnicodeDecodeError
  | Some text =>
      match json_loads text with
      | None =>
          Raise (SBOMParserException ("Invalid JSON: " ++ exn_str JSONDecodeError))
      | Some data => route_json data
      end
  end.

(** [_parse_xml] after [ET.fromstring]: the inspection of [root]. *)
Definition route_xml (root : Element) : result extractor_call :=
  if str_in "cyclonedx" (str_lower (tag root))
  then Ok (CycloneDXParser_parse_xml root)
  else if str_in "spdx" (str_lower (tag root))
  then Ok (SPDXParser_parse_xml root)
  else Raise (SBOMParserException "Unknown SBOM format in XML").

Definition _parse_xml (content : string) : result extractor_call :=
  match utf8_decode content with
  | None => Raise UnicodeDecodeError
  | Some text =>
      match ET_fromstring text with
      | None =>
          Raise (SBOMParserException ("Invalid XML: " ++ exn_str ParseError))
      | Some root => route_xml root
      end
  end.

Definition parse (content filename : string) : result extractor_call :=
  result_catch
    (if endswith filename ".json" then _parse_json content
     else if endswith filename ".xml" then _parse_xml content
     else Raise (SBOMParserException ("Unsupported file format: " ++ filename)))
    (fun e => Raise (SBOMParserException ("Failed to parse SBOM: " ++ exn_str e))).

End defs.
End sbom_parser.

(** The decoders on a payload whose decoded form is known: every text
    reads as [data] and as [root]. *)
Definition decoders_of (data : json) (root : Element) : Decoders :=
  {| utf8_decode := Some;
     json_loads := fun _ => Some data;
     ET_fromstring := fun _ => Some root |}.

(** ** backend/app/models/__init__.py

    The columns the scan code reads or writes; timestamps filled in by
    column defaults are left out. The JSONB column [cpe_match] is read
    back as a list of dictionaries, or [None] when it is null. *)

Module models.

(** One entry of the [cpe_match] JSON column. [criteria] is [None] when
    the key is missing; a bound is [None] when its key is missing or
    null. *)
Record CpeMatch := {
  criteria : option string;
  versionStartIncluding : option string;
  versionStartExcluding : option string;
  versionEndIncluding : option string;
  versionEndExcluding : option string
}.

Record Vulnerability := {
  v_id : nat;
  cve_id : string;
  severity : option string;
  description : string;
  cvss_score : Z;
  cvss_vector : string;
  published_date : option string;
  modified_date : option string;
  cpe_match : option (list CpeMatch);
  references : list string
}.

Record ScanResult := {
  sr_id : nat;
  sr_sbom_id : string;
  status : string;
  total_components : nat;
  vulnerable_count : nat;
  critical_count : nat;
  high_count : nat;
  medium_count : nat;
  low_count : nat;
  scan_duration_seconds : option Z
}.

Record ScanVulnerability := {
  scan_result_id : nat;
  vulnerability_id : nat;
  component_name : string;
  component_version : string;
  matched_cpe : option string
}.

Record SBOM := {
  sbom_id : string;
  filename : string;
  format : string;
  content_json : json
}.

End models.

(** ** The SQLAlchemy session (backend/app/database.py)

    [SessionLocal] is made with [autocommit=False, autoflush=False]. A
    session holds the rows that were added and not yet flushed; [flush]
    sends them to the open transaction, which only [commit] makes visible
    to other sessions. A flush that the database refuses rolls the
    transaction back and leaves the session inactive: until [rollback] is
    called every further [flush] or [commit] raises. The database refuses
    a row that breaks a constraint declared in the models ([String(n)]
    lengths and the unique [cve_id]). *)

Module database.
Import models.

Record Tables := {
  sboms : list SBOM;
  vulnerabilities : list Vulnerability;
  scan_results : list ScanResult;
  scan_vulnerabilities : list ScanVulnerability
}.

Inductive row :=
| VulnerabilityRow (r : Vulnerability)
| ScanResultRow (r : ScanResult)
| ScanVulnerabilityRow (r : ScanVulnerability).

Record Session := {
  committed : Tables;
  transaction : Tables;
  pending : list row;
  active : bool
}.

(** [SessionLocal()] on a database whose committed state is [t] *)
Definition SessionLocal (t : Tables) : Session :=
  {| committed := t; transaction := t; pending := []; active := true |}.

Definition fits (n : nat) (s : string) : bool := (String.length s <=? n)%nat.

Definition fits_opt (n : nat) (s : option string) : bool :=
  match s with
  | Some s => fits n s
  | None => true
  end.

Definition insert_row (t : Tables) (r : row) : result Tables :=
  match r with
  | VulnerabilityRow v =>
      if negb (fits 50 (cve_id v) && fits_opt 20 (severity v) &&
               fits 100 (cvss_vector v))
      then Raise DataError
      else if existsb (fun v' => String.eqb (cve_id v') (cve_id v)) (vulnerabilities t)
      then Raise IntegrityError
      else Ok {| sboms := sboms t;
                 vulnerabilities := vulnerabilities t ++ [v];
                 scan_results := scan_results t;
                 scan_vulnerabilities := scan_vulnerabilities t |}
  | ScanResultRow sr =>
      if negb (fits 50 (status sr)) then Raise DataError
      else Ok {| sboms := sboms t;
                 vulnerabilities := vulnerabilities t;
                 scan_results := scan_results t ++ [sr];
                 scan_vulnerabilities := scan_vulnerabilities t |}
  | ScanVulnerabilityRow sv =>
      if negb (fits 255 (component_name sv) && fits 100 (component_version sv) &&
               fits_opt 255 (matched_cpe sv))
      then Raise DataError
      else Ok {| sboms := sboms t;
                 vulnerabilities := vulnerabilities t;
                 scan_results := scan_results t;
                 scan_vulnerabilities := scan_vulnerabilities t ++ [sv] |}
  end.

Fixpoint insert_rows (t : Tables) (rows : list row) : result Tables :=
  match rows with
  | [] => Ok t
  | r :: rows' =>
      match insert_row t r with
      | Ok t' => insert_rows t' rows'
      | Raise e => Raise e
      end
  end.

(** Code that uses a session: it changes the session and returns a
    value or raises. *)
Definition db (A : Type) : Type := Session -> result A * Session.

Definition ret {A} (a : A) : db A := fun s => (Ok a, s).
Definition raise {A} (e : exn) : db A := fun s => (Raise e, s).
Definition bind {A B} (m : db A) (k : A -> db B) : db B :=
  fun s =>
    match m s with
    | (Ok a, s') => k a s'
    | (Raise e, s') => (Raise e, s')
    end.
(** [try: m except Exception as e: h e] *)
Definition try_except {A} (m : db A) (h : exn -> db A) : db A :=
  fun s =>
    match m s with
    | (Ok a, s') => (Ok a, s')
    | (Raise e, s') => h e s'
    end.
(** [try: m finally: f] *)
Definition try_finally {A} (m : db A) (f : db unit) : db A :=
  fun s =>
    match m s with
    | (r, s') =>
        match f s' with
        | (Ok _, s'') => (r, s'')
        | (Raise e, s'') => (Raise e, s'')
        end
    end.
Definition lift {A} (r : result A) : db A := fun s => (r, s).
(** the rows a query of this session sees *)
Definition query : db Tables := fun s => (Ok (transaction s), s).

Definition add (r : row) : db unit :=
  fun s => (Ok tt, {| committed := committed s;
                      transaction := transaction s;
                      pending := pending s ++ [r];
                      active := active s |}).

Definition flush : db unit :=
  fun s =>
    if negb (active s) then (Raise PendingRollbackError, s)
    else
      match insert_rows (transaction s) (pending s) with
      | Ok t => (Ok tt, {| committed := committed s; transaction := t;
                           pending := []; active := true |})
      | Raise e => (Raise e, {| committed := committed s;
                                transaction := committed s;
                                pending := []; active := false |})
      end.

Definition commit : db unit :=
  fun s =>
    match flush s with
    | (Ok _, s') => (Ok tt, {| committed := transaction s';
                               transaction := transaction s';
                               pending := []; active := true |})
    | (Raise e, s') => (Raise e, s')
    end.

Definition rollback : db unit :=
  fun s => (Ok tt, {| committed := committed s; transaction := committed s;
                      pending := []; active := true |}).

Definition close : db unit := rollback.

(** The primary key the next flushed row of a table receives. The code
    reads a key only after the flush of its row, so the key is put in the
    row when it is built. *)
Definition next_id {A} (key : A -> nat) (rows : list A) : nat :=
  S (list_max (map key rows)).

End database.

Declare Scope db_scope.
Delimit Scope db_scope with db.
Notation "x <- m ;; k" := (database.bind m (fun x => k))
  (at level 20, m at level 99, k at level 200, only parsing) : db_scope.
Notation "m ;; k" := (database.bind m (fun _ => k))
  (at level 100, k at level 200, only parsing, right associativity) : db_scope.

(** ** backend/app/services/scanner.py *)

Module scanner.
Import pystr sbom_parser models database.
Local Open Scope db_scope.

(** The [results] dictionary of [scan_components]. *)
Record results := {
  total_components : nat;
  vulnerable_components : list (Component * list Vulnerability);
  vulnerabilities_found : list Vulnerability;
  severity_counts : gmap string nat
}.

Definition initial_severity_counts : gmap string nat :=
  <["CRITICAL" := 0]> (<["HIGH" := 0]> (<["MEDIUM" := 0]>
    (<["LOW" := 0]> (<["UNKNOWN" := 0]> ∅)))).

Section defs.
Context `{StrLower} `{PkgVersion}.

Definition _normalize_component_name (name : string) : string :=
  let normalized := str_lower name in
  let normalized := re_sub_non_az09 normalized in
  let normalized := re_sub_underscores normalized in
  let normalized := strip_underscore normalized in
  normalized.

Definition _match_cpe_product (cpe component_name : string) : bool :=
  let parts := str_split ":" cpe in
  if (length parts <? 5)%nat then false
  else
    let product := str_lower (nth 4 parts "") in
    let vendor :=
      if (3 <? length parts)%nat then str_lower (nth 3 parts "") else "" in
    if str_in product component_name || str_in component_name product
    then true
    else if negb (String.eqb vendor "") &&
            (str_in vendor component_name ||
             str_in (vendor ++ "_" ++ product) component_name)
    then true
    else false.

(** One of the four guarded comparisons of the [try] block: [None] when
    parsing the bound raises, [Some true] when the guarded [return False]
    is taken. *)
Definition bound_rejects (bound : option string)
    (out_of_range : Version -> bool) : option bool :=
  match truthy bound with
  | Some b => bound_ver ← pkg_version_parse b; Some (out_of_range bound_ver)
  | None => Some false
  end.

(** The body of the [try]. *)
Definition _check_version_range_try (component_version : string)
    (version_start_including version_start_excluding
     version_end_including version_end_excluding : option string)
    : option bool :=
  comp_ver ← pkg_version_parse component_version;
  r ← bound_rejects version_start_including (fun start_ver => vlt comp_ver start_ver);
  if r : bool then Some false else
  r ← bound_rejects version_start_excluding (fun start_ver => vle comp_ver start_ver);
  if r : bool then Some false else
  r ← bound_rejects version_end_including (fun end_ver => vgt comp_ver end_ver);
  if r : bool then Some false else
  r ← bound_rejects version_end_excluding (fun end_ver => vge comp_ver end_ver);
  if r : bool then Some false else
  Some true.

Definition _check_version_range (component_version : string)
    (version_start_including version_start_excluding
     version_end_including version_end_excluding : option string) : bool :=
  match _check_version_range_try component_version
          version_start_including version_start_excluding
          version_end_including version_end_excluding with
  | Some b => b
  | None =>
      match truthy version_start_including with
      | Some s => String.eqb component_version s
      | None => false
      end
  end.

(** The loop over the criteria returns at the first one that passes both
    tests, which is [existsb]. The branch for a [cpe_match] held as JSON
    text does not arise on a column that is read back decoded. *)
Definition _is_vulnerable (component : Component)
    (vulnerability : Vulnerability) : bool :=
  match cpe_match vulnerability with
  | None | Some [] => false
  | Some cpe_matches =>
      let normalized_name := _normalize_component_name (name component) in
      existsb
        (fun cpe_match =>
           let criteria := default "" (criteria cpe_match) in
           _match_cpe_product criteria normalized_name &&
           _check_version_range (version component)
             (versionStartIncluding cpe_match)
             (versionStartExcluding cpe_match)
             (versionEndIncluding cpe_match)
             (versionEndExcluding cpe_match))
        cpe_matches
  end.

Definition _find_vulnerabilities_for_component (session : Session)
    (component : Component) : list Vulnerability :=
  let candidates :=
    filter (fun v => is_Some (cpe_match v)) (vulnerabilities (transaction session)) in
  filter (fun vuln => _is_vulnerable component vuln = true) candidates.

(** Lines 57-58: the tally of one matched vulnerability. *)
Definition count_severity (counts : gmap string nat) (vuln : Vulnerability)
    : gmap string nat :=
  let severity := default "UNKNOWN" (truthy (severity vuln)) in
  <[severity := default 0 (counts !! severity) + 1]> counts.

(** The body of the loop over the components. *)
Definition scan_component (session : Session) (res : results)
    (component : Component) : results :=
  let vulns := _find_vulnerabilities_for_component session component in
  match vulns with
  | [] => res
  | _ =>
      {| total_components := total_components res;
         vulnerable_components :=
           vulnerable_components res ++ [(component, vulns)];
         vulnerabilities_found := vulnerabilities_found res ++ vulns;
         severity_counts := fold_left count_severity vulns (severity_counts res) |}
  end.

Definition scan_components (session : Session) (components : list Component)
    : results :=
  fold_left (scan_component session) components
    {| total_components := length components;
       vulnerable_components := [];
       vulnerabilities_found := [];
       severity_counts := initial_severity_counts |}.

Definition _extract_matched_cpe (component : Component)
    (vulnerability : Vulnerability) : option string :=
  match cpe_match vulnerability with
  | None | Some [] => None
  | Some cpe_matches =>
      head (omap (fun cpe_match => truthy (Some (default "" (criteria cpe_match))))
              cpe_matches)
  end.

Definition save_scan_result (sbom_id : string) (scan_results : results)
    (scan_duration : Z) : db ScanResult :=
  try_except
    (tables <- query ;;
     let scan_result :=
       {| sr_id := next_id sr_id (database.scan_results tables);
          sr_sbom_id := sbom_id;
          status := "completed";
          models.total_components := total_components scan_results;
          vulnerable_count := length (vulnerable_components scan_results);
          critical_count := default 0 (severity_counts scan_results !! "CRITICAL");
          high_count := default 0 (severity_counts scan_results !! "HIGH");
          medium_count := default 0 (severity_counts scan_results !! "MEDIUM");
          low_count := default 0 (severity_counts scan_results !! "LOW");
          scan_duration_seconds := Some scan_duration |} in
     add (ScanResultRow scan_result) ;;
     flush ;;
     fold_right
       (fun '(component, vulns) rest =>
          fold_right
            (fun vulnerability rest' =>
               add (ScanVulnerabilityRow
                      {| scan_result_id := sr_id scan_result;
                         vulnerability_id := v_id vulnerability;
                         component_name := name component;
                         component_version := version component;
                         matched_cpe := _extract_matched_cpe component vulnerability |}) ;;
               rest')
            rest vulns)
       (commit ;; ret scan_result)
       (vulnerable_components scan_results))
    (fun e => rollback ;; raise e).

End defs.
End scanner.

(** ** backend/app/services/trivy_service.py

    Trivy's report is read with the shape its JSON schema gives it: a
    sequence of targets, each with a sequence of findings whose fields
    are strings. A field is [None] when its key is missing, which is the
    case [dict.get] covers with its default. *)

Module trivy_service.

Record Finding := {
  VulnerabilityID : option string;
  Severity : option string;
  PkgName : option string;
  InstalledVersion : option string;
  FixedVersion : option string;
  Title : option string;
  Description : option string;
  V3Score : option Z;
  V3Vector : option string;
  References : option (list string);
  PublishedDate : option string;
  LastModifiedDate : option string
}.

Record TargetResult := {
  Target : option string;
  Vulnerabilities : option (list Finding)
}.

Record TrivyReport := {
  Results : option (list TargetResult)
}.

(** [json.loads(result.stdout)] read as a report. It raises on output
    that is not JSON; an output of another shape raises later, inside
    [_parse_trivy_result], and ends in the same handler of [scan_sbom]. *)
Class ReportDecoder := loads_report : string -> result TrivyReport.

(** What [subprocess.run] does: it returns, times out, or raises. *)
Record CompletedProcess := {
  returncode : Z;
  stdout : string;
  stderr : string
}.

Inductive run_outcome :=
| Completed (process : CompletedProcess)
| RunTimeoutExpired
| RunRaised (e : exn).

(** The [vulnerability_data] dictionary. *)
Record vulnerability_data := {
  cve_id : string;
  severity : string;
  component_name : string;
  component_version : string;
  fixed_version : string;
  title : string;
  description : string;
  cvss_score : Z;
  cvss_vector : string;
  references : list string;
  target : string;
  published_date : string;
  last_modified_date : string
}.

(** The dictionary [_parse_trivy_result] returns, whose status is
    [success]. *)
Record parsed_result := {
  vulnerabilities : list vulnerability_data;
  severity_counts : gmap string nat;
  vulnerable_components_count : nat;
  total_vulnerabilities : nat
}.

(** The dictionary [scan_sbom] returns: a parsed result, or status
    [failed] with an error, no vulnerability and zero counts. *)
Inductive scan_output :=
| Success (parsed : parsed_result)
| Failed (error : string).

Definition initial_severity_counts : gmap string nat :=
  <["CRITICAL" := 0]> (<["HIGH" := 0]> (<["MEDIUM" := 0]>
    (<["LOW" := 0]> (<["UNKNOWN" := 0]> ∅)))).

Definition make_vulnerability_data (target : string) (vuln : Finding)
    : vulnerability_data :=
  {| cve_id := default "UNKNOWN" (VulnerabilityID vuln);
     severity := default "UNKNOWN" (Severity vuln);
     component_name := default "unknown" (PkgName vuln);
     component_version := default "unknown" (InstalledVersion vuln);
     fixed_version := default "" (FixedVersion vuln);
     title := default "" (Title vuln);
     description := default "" (Description vuln);
     cvss_score := default 0%Z (V3Score vuln);
     cvss_vector := default "" (V3Vector vuln);
     references := default [] (References vuln);
     target := target;
     published_date := default "" (PublishedDate vuln);
     last_modified_date := default "" (LastModifiedDate vuln) |}.

(** Lines 243-246: the tally of one finding. *)
Definition count_severity (counts : gmap string nat) (severity : string)
    : gmap string nat :=
  match counts !! severity with
  | Some n => <[severity := n + 1]> counts
  | None => <["UNKNOWN" := default 0 (counts !! "UNKNOWN") + 1]> counts
  end.

(** The local variables of [_parse_trivy_result]. *)
Record parse_state := {
  st_vulnerabilities : list vulnerability_data;
  st_severity_counts : gmap string nat;
  st_vulnerable_components : gset string
}.

Definition parse_finding (target : string) (st : parse_state) (vuln : Finding)
    : parse_state :=
  let data := make_vulnerability_data target vuln in
  {| st_vulnerabilities := st_vulnerabilities st ++ [data];
     st_severity_counts := count_severity (st_severity_counts st) (severity data);
     st_vulnerable_components :=
       {[ (component_name data ++ "@" ++ component_version data)%string ]}
       ∪ st_vulnerable_components st |}.

Definition parse_target (st : parse_state) (result : TargetResult) : parse_state :=
  let target := default "unknown" (Target result) in
  let vulns := default [] (Vulnerabilities result) in
  fold_left (parse_finding target) vulns st.

Definition _parse_trivy_result (trivy_result : TrivyReport) : parsed_result :=
  let results := default [] (Results trivy_result) in
  let st := fold_left parse_target results
              {| st_vulnerabilities := [];
                 st_severity_counts := initial_severity_counts;
                 st_vulnerable_components := ∅ |} in
  {| vulnerabilities := st_vulnerabilities st;
     severity_counts := st_severity_counts st;
     vulnerable_components_count := size (st_vulnerable_components st);
     total_vulnerabilities := length (st_vulnerabilities st) |}.

(** [scan_sbom], given what [subprocess.run] did. *)
Definition scan_sbom `{ReportDecoder} (run : run_outcome) : scan_output :=
  match run with
  | Completed result =>
      if ((returncode result =? 0) || (returncode result =? 1))%Z then
        match loads_report (stdout result) with
        | Ok scan_result => Success (_parse_trivy_result scan_result)
        | Raise e => Failed ("Trivy scan error: " ++ exn_str e)
        end
      else Failed ("Trivy scan failed: " ++ stderr result)
  | RunTimeoutExpired => Failed "Trivy scan timed out"
  | RunRaised e => Failed ("Trivy scan error: " ++ exn_str e)
  end.

End trivy_service.

(** ** backend/app/celery_worker.py *)

(** [uuid.UUID] and [datetime.fromisoformat]; [None] is their
    [ValueError]. A UUID and a datetime are kept as the text that
    denotes them. *)
Class Library := {
  UUID : string -> option string;
  fromisoformat : string -> option string
}.

Module celery_worker.
Import pyjson models database.
Local Open Scope db_scope.
Local Open Scope result_scope.

(** The dictionary the task returns. *)
Inductive task_result :=
| TaskSuccess (sbom_id : string) (scan_result_id : nat)
    (total_components vulnerable_count total_vulnerabilities : nat)
    (severity_counts : gmap string nat) (scan_duration_seconds : Z)
| TaskFailed (error : string).

Section defs.
Context `{StrLower} `{trivy_service.ReportDecoder} `{Library}.

(** Lines 131-139 *)
Definition count_components (sbom : SBOM) : result nat :=
  let format := str_lower (format sbom) in
  if String.eqb format "cyclonedx" then
    let* components := get (content_json sbom) "components" (JArray []) in
    len components
  else if String.eqb format "spdx" then
    let* packages := get (content_json sbom) "packages" (JArray []) in
    len packages
  else
    let* components := get (content_json sbom) "components" (JArray []) in
    let* packages := get (content_json sbom) "packages" (JArray []) in
    if truth components then len components else len packages.

(** [datetime.fromisoformat(d.replace('Z', '+00:00')) if d else None] *)
Definition parse_date (d : string) : result (option string) :=
  if String.eqb d "" then Ok None
  else match fromisoformat (replace_Z d) with
       | Some t => Ok (Some t)
       | None => Raise ValueError
       end.

(** The body of the loop over [scan_results['vulnerabilities']]. *)
Definition save_vulnerability (scan_result : ScanResult)
    (vuln_data : trivy_service.vulnerability_data) : db unit :=
  tables <- query ;;
  vulnerability <-
    match find (fun v => String.eqb (cve_id v) (trivy_service.cve_id vuln_data))
               (vulnerabilities tables) with
    | Some vulnerability => ret vulnerability
    | None =>
        published <- lift (parse_date (trivy_service.published_date vuln_data)) ;;
        modified <- lift (parse_date (trivy_service.last_modified_date vuln_data)) ;;
        let vulnerability :=
          {| v_id := next_id v_id (vulnerabilities tables);
             cve_id := trivy_service.cve_id vuln_data;
             severity := Some (trivy_service.severity vuln_data);
             description := trivy_service.description vuln_data;
             cvss_score := trivy_service.cvss_score vuln_data;
             cvss_vector := trivy_service.cvss_vector vuln_data;
             published_date := published;
             modified_date := modified;
             cpe_match := None;
             references := trivy_service.references vuln_data |} in
        add (VulnerabilityRow vulnerability) ;;
        flush ;;
        ret vulnerability
    end ;;
  add (ScanVulnerabilityRow
         {| scan_result_id := sr_id scan_result;
            vulnerability_id := v_id vulnerability;
            component_name := trivy_service.component_name vuln_data;
            component_version := trivy_service.component_version vuln_data;
            matched_cpe := Some (trivy_service.target vuln_data) |}).

Fixpoint save_vulnerabilities (scan_result : ScanResult)
    (vulns : list trivy_service.vulnerability_data) : db unit :=
  match vulns with
  | [] => ret tt
  | vuln_data :: rest =>
      save_vulnerability scan_result vuln_data ;;
      save_vulnerabilities scan_result rest
  end.

(** The [try] block of the task, from the lookup of the SBOM on. *)
Definition scan_and_save (run : trivy_service.run_outcome) (scan_duration : Z)
    (sbom_id sbom_uuid : string) : db task_result :=
  tables <- query ;;
  match find (fun s => String.eqb (models.sbom_id s) sbom_uuid) (sboms tables) with
  | None => ret (TaskFailed "SBOM not found")
  | Some sbom =>
      match trivy_service.scan_sbom run with
      | trivy_service.Failed error => raise (Exception error)
      | trivy_service.Success scan_results =>
          total_components <- lift (count_components sbom) ;;
          tables <- query ;;
          let counts := trivy_service.severity_counts scan_results in
          let scan_result :=
            {| sr_id := next_id sr_id (database.scan_results tables);
               sr_sbom_id := sbom_uuid;
               status := "completed";
               total_components := total_components;
               vulnerable_count :=
                 trivy_service.vulnerable_components_count scan_results;
               critical_count := default 0 (counts !! "CRITICAL");
               high_count := default 0 (counts !! "HIGH");
               medium_count := default 0 (counts !! "MEDIUM");
               low_count := default 0 (counts !! "LOW");
               scan_duration_seconds := Some scan_duration |} in
          add (ScanResultRow scan_result) ;;
          flush ;;
          save_vulnerabilities scan_result
            (trivy_service.vulnerabilities scan_results) ;;
          commit ;;
          ret (TaskSuccess sbom_id (sr_id scan_result) total_components
                 (trivy_service.vulnerable_components_count scan_results)
                 (trivy_service.total_vulnerabilities scan_results)
                 counts scan_duration)
      end
  end.

(** The handler of the task: record a failed scan, best effort. *)
Definition record_failure (sbom_id : string) (e : exn) : db task_result :=
  try_except
    (tables <- query ;;
     let failed_scan :=
       {| sr_id := next_id sr_id (scan_results tables);
          sr_sbom_id := sbom_id;
          status := "failed";
          total_components := 0;
          vulnerable_count := 0;
          critical_count := 0;
          high_count := 0;
          medium_count := 0;
          low_count := 0;
          scan_duration_seconds := None |} in
     add (ScanResultRow failed_scan) ;;
     commit)
    (fun _ => rollback) ;;
  ret (TaskFailed (exn_str e)).

(** The task, given what [subprocess.run] did and the duration the clock
    gave. *)
Definition scan_sbom (run : trivy_service.run_outcome) (scan_duration : Z)
    (sbom_id : string) : db task_result :=
  try_finally
    (try_except
       (match UUID sbom_id with
        | None => ret (TaskFailed "Invalid SBOM ID format")
        | Some sbom_uuid => scan_and_save run scan_duration sbom_id sbom_uuid
        end)
       (record_failure sbom_id))
    close.

(** The task run by a worker on a database whose committed state is [t]:
    the dictionary it returns and the committed state it leaves. *)
Definition run_task (t : Tables) (run : trivy_service.run_outcome)
    (scan_duration : Z) (sbom_id : string) : result task_result * Tables :=
  let (r, s) := scan_sbom run scan_duration sbom_id (SessionLocal t) in
  (r, committed s).

End defs.
End celery_worker.

(** ** Sample data: scenario A of the specification *)

Module examples.
Import sbom_parser models database.

Definition log4j_core : Component :=
  {| name := "log4j-core"; version := "2.14.1";
     purl := None; component_type := Some "library" |}.

Definition log4j_criterion : CpeMatch :=
  {| criteria := Some "cpe:2.3:a:apache:log4j:*";
     versionStartIncluding := None;
     versionStartExcluding := None;
     versionEndIncluding := None;
     versionEndExcluding := Some "2.15.0" |}.

Definition log4shell (severity : option string) : Vulnerability :=
  {| v_id := 1;
     cve_id := "CVE-2021-44228";
     severity := severity;
     description := "";
     cvss_score := 100;
     cvss_vector := "";
     published_date := None;
     modified_date := None;
     cpe_match := Some [log4j_criterion];
     references := [] |}.

(** a store that holds this vulnerability and nothing else *)
Definition store (severity : option string) : Tables :=
  {| sboms := [];
     vulnerabilities := [log4shell severity];
     scan_results := [];
     scan_vulnerabilities := [] |}.

(** A stored SBOM with two components. *)
Definition sbom_1 : SBOM :=
  {| sbom_id := "9f1c2d3e-0000-4000-8000-000000000001";
     filename := "bom.json";
     format := "cyclonedx";
     content_json :=
       JObject [("bomFormat", JString "CycloneDX");
                ("components",
                 JArray [JObject [("name", JString "log4j-core");
                                  ("version", JString "2.14.1")];
                         JObject [("name", JString "log4j-api");
                                  ("version", JString "2.14.1")]])] |}.

Definition store_1 : Tables :=
  {| sboms := [sbom_1];
     vulnerabilities := [];
     scan_results := [];
     scan_vulnerabilities := [] |}.

(** A finding of Trivy on [log4j-core]. *)
Definition finding (cve : string) (pkg : string) (published : option string)
    : trivy_service.Finding :=
  {| trivy_service.VulnerabilityID := Some cve;
     trivy_service.Severity := Some "CRITICAL";
     trivy_service.PkgName := Some pkg;
     trivy_service.InstalledVersion := Some "2.14.1";
     trivy_service.FixedVersion := Some "2.17.0";
     trivy_service.Title := None;
     trivy_service.Description := None;
     trivy_service.V3Score := None;
     trivy_service.V3Vector := None;
     trivy_service.References := None;
     trivy_service.PublishedDate := published;
     trivy_service.LastModifiedDate := None |}.

(** A report with two findings on one target. *)
Definition report (second : trivy_service.Finding) : trivy_service.TrivyReport :=
  {| trivy_service.Results :=
       Some [{| trivy_service.Target := Some "bom.json";
                trivy_service.Vulnerabilities :=
                  Some [finding "CVE-2021-44228" "log4j-core" None; second] |}] |}.

(** Trivy ended with exit code [code]. *)
Definition process (code : Z) : trivy_service.CompletedProcess :=
  {| trivy_service.returncode := code;
     trivy_service.stdout := "report";
     trivy_service.stderr := "fatal error" |}.

Definition exited (code : Z) : trivy_service.run_outcome :=
  trivy_service.Completed (process code).

(** A package name longer than the 255 characters of [component_name]. *)
Fixpoint long_name (n : nat) : string :=
  match n with
  | O => EmptyString
  | S n' => String "a" (long_name n')
  end.

(** The decoder on an output whose report is known. *)
Definition decoder_of (r : trivy_service.TrivyReport) : trivy_service.ReportDecoder :=
  fun _ => Ok r.

Definition starts_with_date (s : string) : bool :=
  match s with
  | String y1 (String y2 (String y3 (String y4 (String d1
      (String m1 (String m2 (String d2 (String a1 (String a2 _))))))))) =>
      forallb pystr.is_digit [y1; y2; y3; y4; m1; m2; a1; a2] &&
      Ascii.eqb d1 "-" && Ascii.eqb d2 "-"
  | _ => false
  end.

(** A library that takes every text as a UUID and, as a datetime, the
    texts that start with a date [YYYY-MM-DD]. *)
Definition library : Library :=
  {| UUID := Some;
     fromisoformat := fun s => if starts_with_date s then Some s else None |}.

End examples.

(** ** The specification's wording, for comparison with the code *)

Module spec.
Import pystr.

(** "every run of non-alphanumeric characters collapsed to a single
    underscore": [in_run] tells that the character before [s] was
    non-alphanumeric. *)
Fixpoint collapse_runs (in_run : bool) (s : string) : string :=
  match s with
  | EmptyString => EmptyString
  | String c s' =>
      if is_az09 c then String c (collapse_runs false s')
      else if in_run then collapse_runs true s'
      else String underscore (collapse_runs true s')
  end.

(** "lowercase of [name], every run of non-alphanumeric characters
    collapsed to a single underscore, leading/trailing underscores
    stripped" *)
Definition NormalizedName `{StrLower} (name : string) : string :=
  strip_underscore (collapse_runs false (str_lower name)).

Definition chars (s : string) : list ascii := list_ascii_of_string s.

(** the characters [a-z0-9_] *)
Definition name_char (c : ascii) : Prop := is_az09 c = true \/ c = underscore.

Fixpoint has_double_underscore (s : string) : bool :=
  match s with
  | EmptyString => false
  | String a s' =>
      match s' with
      | EmptyString => false
      | String b _ =>
          (Ascii.eqb a underscore && Ascii.eqb b underscore) ||
          has_double_underscore s'
      end
  end.

Definition starts_with_underscore (s : string) : bool :=
  match s with
  | String c _ => Ascii.eqb c underscore
  | EmptyString => false
  end.

Section version_range.
Context `{PkgVersion}.

(** A bound is present when the code's own test [if bound:] holds. Every
    present bound parses. *)
Definition parseable (bound : option string) : Prop :=
  forall s, truthy bound = Some s -> is_Some (pkg_version_parse s).

(** "all present bounds hold; absent bounds impose no constraint" *)
Definition bound_holds (bound : option string) (holds : Version -> bool) : Prop :=
  forall s b, truthy bound = Some s -> pkg_version_parse s = Some b -> holds b = true.

(** "[v >= startIncl], [v > startExcl], [v <= endIncl], [v < endExcl]" *)
Definition in_range (v : Version) (startIncl startExcl endIncl endExcl : option string)
    : Prop :=
  bound_holds startIncl (fun b => vge v b) /\
  bound_holds startExcl (fun b => vgt v b) /\
  bound_holds endIncl (fun b => vle v b) /\
  bound_holds endExcl (fun b => vlt v b).

End version_range.

Section name_eligibility.
Context `{StrLower}.

(** "vendor and product from the 4th and 5th colon-delimited fields" *)
Definition cpe_fields (cpe : string) : list string := str_split ":" cpe.
Definition cpe_vendor (cpe : string) : string := str_lower (nth 3 (cpe_fields cpe) "").
Definition cpe_product (cpe : string) : string := str_lower (nth 4 (cpe_fields cpe) "").

(** "the product is a substring of the normalized component name or the
    normalized name is a substring of the product, or the vendor
    substring-matches the normalized name, or the literal string
    <vendor>_<product> is a substring of the normalized name; a criterion
    with fewer than five colon-delimited fields is never name-eligible" *)
Definition name_eligible (cpe normalized_name : string) : bool :=
  (5 <=? length (cpe_fields cpe))%nat &&
  (str_in (cpe_product cpe) normalized_name ||
   str_in normalized_name (cpe_product cpe) ||
   str_in (cpe_vendor cpe) normalized_name ||
   str_in (cpe_vendor cpe ++ "_" ++ cpe_product cpe) normalized_name).

End name_eligibility.

(** "sum(severityCounts.values())" *)
Definition sum_counts (counts : gmap string nat) : nat :=
  sum_list (snd <$> map_to_list counts).

Section matches.
Context `{StrLower} `{PkgVersion}.

(** the (component, vulnerability) match pairs of a scan *)
Definition match_pairs (session : database.Session)
    (components : list sbom_parser.Component)
    : list (sbom_parser.Component * models.Vulnerability) :=
  flat_map
    (fun c => map (pair c) (scanner._find_vulnerabilities_for_component session c))
    components.

(** the components with at least one match *)
Definition vulnerable (session : database.Session)
    (components : list sbom_parser.Component) : list sbom_parser.Component :=
  filter (fun c => scanner._find_vulnerabilities_for_component session c <> [])
    components.

End matches.

(** the five severity buckets *)
Definition buckets : list string := ["CRITICAL"; "HIGH"; "MEDIUM"; "LOW"; "UNKNOWN"].

End spec.

(** ** Quantities the further properties are stated with *)

Module derived.
Import pystr sbom_parser models database.

(** the bucket the matcher counts a vulnerability under *)
Definition effective_severity (v : Vulnerability) : string :=
  default "UNKNOWN" (truthy (severity v)).

Definition count_with_severity (k : string) (vulns : list Vulnerability) : nat :=
  length (filter (fun v => effective_severity v = k) vulns).

(** the rows of each table in a list of rows *)
Definition row_vulnerability (r : row) : option Vulnerability :=
  match r with VulnerabilityRow v => Some v | _ => None end.
Definition row_scan_result (r : row) : option ScanResult :=
  match r with ScanResultRow sr => Some sr | _ => None end.
Definition row_scan_vulnerability (r : row) : option ScanVulnerability :=
  match r with ScanVulnerabilityRow sv => Some sv | _ => None end.

(** the (component, vulnerability) pairs of a scan result, in order *)
Definition result_pairs (res : scanner.results)
    : list (Component * Vulnerability) :=
  flat_map (fun '(c, vs) => map (pair c) vs) (scanner.vulnerable_components res).

(** the association row of a pair under the scan result [scan_result] *)
Definition link (scan_result : ScanResult) (cv : Component * Vulnerability)
    : ScanVulnerability :=
  {| scan_result_id := sr_id scan_result;
     vulnerability_id := v_id (snd cv);
     component_name := name (fst cv);
     component_version := version (fst cv);
     matched_cpe := scanner._extract_matched_cpe (fst cv) (snd cv) |}.

(** the row [save_scan_result] builds on a session whose tables are
    [tables] *)
Definition completed_row (sbom_id : string) (res : scanner.results)
    (scan_duration : Z) (tables : Tables) : ScanResult :=
  {| sr_id := next_id sr_id (scan_results tables);
     sr_sbom_id := sbom_id;
     status := "completed";
     total_components := scanner.total_components res;
     vulnerable_count := length (scanner.vulnerable_components res);
     critical_count := default 0 (scanner.severity_counts res !! "CRITICAL");
     high_count := default 0 (scanner.severity_counts res !! "HIGH");
     medium_count := default 0 (scanner.severity_counts res !! "MEDIUM");
     low_count := default 0 (scanner.severity_counts res !! "LOW");
     scan_duration_seconds := Some scan_duration |}.

(** a criterion without a usable [criteria] string *)
Definition no_criteria (m : CpeMatch) : Prop :=
  criteria m = None \/ criteria m = Some EmptyString.

(** [t'] holds the rows of [t], in the same order, and possibly more
    after them; the stored SBOMs are the same. *)
Definition extends (t t' : Tables) : Prop :=
  sboms t' = sboms t /\
  vulnerabilities t `prefix_of` vulnerabilities t' /\
  scan_results t `prefix_of` scan_results t' /\
  scan_vulnerabilities t `prefix_of` scan_vulnerabilities t'.

(** the findings of a Trivy report, in order *)
Definition report_findings (r : trivy_service.TrivyReport)
    : list trivy_service.Finding :=
  flat_map (fun t => default [] (trivy_service.Vulnerabilities t))
    (default [] (trivy_service.Results r)).

(** the bucket the external scanner counts a finding under *)
Definition bucket_of (f : trivy_service.Finding) : string :=
  let severity := default "UNKNOWN" (trivy_service.Severity f) in
  if bool_decide (severity ∈ spec.buckets) then severity else "UNKNOWN".

(** the key of a finding in the set of vulnerable components *)
Definition component_key (f : trivy_service.Finding) : string :=
  (default "unknown" (trivy_service.PkgName f) ++ "@" ++
   default "unknown" (trivy_service.InstalledVersion f))%string.

(** the state of the loop of [_parse_trivy_result] after the findings
    [fs] of one or more targets *)
Definition after_findings (st : trivy_service.parse_state)
    (fs : list trivy_service.Finding) (st' : trivy_service.parse_state) : Prop :=
  length (trivy_service.st_vulnerabilities st') =
    length (trivy_service.st_vulnerabilities st) + length fs /\
  trivy_service.st_severity_counts st' =
    fold_left trivy_service.count_severity
      (map (fun f => default "UNKNOWN" (trivy_service.Severity f)) fs)
      (trivy_service.st_severity_counts st) /\
  trivy_service.st_vulnerable_components st' =
    list_to_set (map component_key fs) ∪ trivy_service.st_vulnerable_components st.

(** A session opened on a database whose committed tables extended
    [t0]: what is committed still extends [t0], and the open transaction
    extends what is committed. *)
Definition session_extends (t0 : Tables) (s : Session) : Prop :=
  extends t0 (committed s) /\ extends (committed s) (transaction s).

(** code that keeps [session_extends], whatever it returns *)
Definition keeps {A} (m : db A) : Prop :=
  forall t0 s, session_extends t0 s -> session_extends t0 (snd (m s)).

(** the rows of two tables a commit of the session would make visible *)
Definition all_scan_results (s : Session) : list ScanResult :=
  scan_results (transaction s) ++ omap row_scan_result (pending s).
Definition all_scan_vulnerabilities (s : Session) : list ScanVulnerability :=
  scan_vulnerabilities (transaction s) ++ omap row_scan_vulnerability (pending s).

(** what an association row says, but for the key of the vulnerability *)
Definition association (sv : ScanVulnerability)
    : nat * string * string * option string :=
  (scan_result_id sv, component_name sv, component_version sv, matched_cpe sv).

(** the association the task writes for a finding under scan [id] *)
Definition finding_association (id : nat) (d : trivy_service.vulnerability_data)
    : nat * string * string * option string :=
  (id, trivy_service.component_name d, trivy_service.component_version d,
   Some (trivy_service.target d)).

(** the keys of a tally are the five buckets *)
Definition five_buckets (counts : gmap string nat) : Prop :=
  forall k, is_Some (counts !! k) <-> k ∈ spec.buckets.

End derived.

(** ** The database refresh (trivy_service.py, celery_worker.py)

    [update_database] and [check_trivy_installed] each run Trivy once;
    what [subprocess.run] did is their argument, and so is the text each
    [datetime.utcnow().isoformat()] gives. *)

Module trivy_maintenance.
Import trivy_service.

(** The dictionary [update_database] returns. *)
Inductive update_stats :=
| UpdateSuccess (updated_at cache_dir message : string)
| UpdateFailed (error updated_at : string).

Definition update_database (trivy_cache_dir : string) (run : run_outcome)
    (now : string) : update_stats :=
  match run with
  | Completed result =>
      if (returncode result =? 0)%Z
      then UpdateSuccess now trivy_cache_dir "Database updated successfully"
      else UpdateFailed ("Trivy DB update failed: " ++ stderr result) now
  | RunTimeoutExpired => UpdateFailed "Trivy DB update timed out" now
  | RunRaised e => UpdateFailed ("Trivy DB update error: " ++ exn_str e) now
  end.

Definition check_trivy_installed (run : run_outcome) : bool :=
  match run with
  | Completed result => (returncode result =? 0)%Z
  | RunTimeoutExpired => false
  | RunRaised _ => false
  end.

(** The dictionary the task [update_trivy_db] returns. *)
Inductive update_task_result :=
| UpdateTaskSuccess (stats : update_stats) (timestamp : string)
| UpdateTaskFailed (error timestamp : string).

(** [version_run] is the run of [trivy --version], [update_run] the run of
    the download, which only takes place when Trivy is installed. Neither
    function raises, so the handler of the task has nothing to catch. *)
Definition update_trivy_db (trivy_cache_dir : string)
    (version_run update_run : run_outcome) (updated_at now : string)
    : update_task_result :=
  if negb (check_trivy_installed version_run)
  then UpdateTaskFailed "Trivy is not installed" now
  else
    let stats := update_database trivy_cache_dir update_run updated_at in
    UpdateTaskSuccess stats now.

End trivy_maintenance.

(** ** backend/app/routers/sbom.py: deleting an SBOM

    A raised [HTTPException] is an answer of the endpoint like a returned
    body. The bulk [query(...).delete()] acts on the open transaction at
    once; on a session that is inactive it raises like every statement.
    The DELETE of [db.delete(sbom)] is sent by the flush of the commit,
    which is the next thing the endpoint does. *)

Module routers.
Import models database.
Local Open Scope db_scope.

Inductive answer (A : Type) :=
| Response (body : A)
| HTTPException (status_code : nat) (detail : string).
Arguments Response {A} body.
Arguments HTTPException {A} status_code detail.

(** [db.query(ScanResult).filter(ScanResult.sbom_id == sbom_uuid).delete()] *)
Definition delete_scan_results (sbom_uuid : string) : db unit :=
  fun s =>
    if negb (active s) then (Raise PendingRollbackError, s)
    else
      (Ok tt,
       {| committed := committed s;
          transaction :=
            {| sboms := sboms (transaction s);
               vulnerabilities := vulnerabilities (transaction s);
               scan_results :=
                 filter (fun r => sr_sbom_id r <> sbom_uuid)
                   (scan_results (transaction s));
               scan_vulnerabilities := scan_vulnerabilities (transaction s) |};
          pending := pending s;
          active := active s |}).

(** [db.delete(sbom)] *)
Definition delete (sbom : SBOM) : db unit :=
  fun s =>
    (Ok tt,
     {| committed := committed s;
        transaction :=
          {| sboms :=
               filter (fun r => sbom_id r <> sbom_id sbom) (sboms (transaction s));
             vulnerabilities := vulnerabilities (transaction s);
             scan_results := scan_results (transaction s);
             scan_vulnerabilities := scan_vulnerabilities (transaction s) |};
        pending := pending s;
        active := active s |}).

(** The message of the body [{"success": True, "message": ...}]. *)
Definition deleted_message : string := "SBOMが正常に削除されました".

Definition delete_sbom `{Library} (sbom_id : string) : db (answer string) :=
  try_except
    (match UUID sbom_id with
     | None => ret (HTTPException 400 "Invalid SBOM ID format")
     | Some sbom_uuid =>
         tables <- query ;;
         match find (fun s => String.eqb (models.sbom_id s) sbom_uuid)
                 (sboms tables) with
         | None => ret (HTTPException 404 "SBOM not found")
         | Some sbom =>
             delete_scan_results sbom_uuid ;;
             delete sbom ;;
             commit ;;
             ret (Response deleted_message)
         end
     end)
    (fun e => rollback ;; ret (HTTPException 500 (exn_str e))).

(** The endpoint on a database whose committed state is [t], with the
    session [get_db] opens and closes around it. *)
Definition run_delete_sbom `{Library} (t : Tables) (sbom_id : string)
    : result (answer string) * Tables :=
  let (r, s) := try_finally (delete_sbom sbom_id) close (SessionLocal t) in
  (r, committed s).

End routers.

(** ** A database with one finished scan *)

Module scanned.
Import models database.

Definition scan_1 : ScanResult :=
  {| sr_id := 1;
     sr_sbom_id := sbom_id examples.sbom_1;
     status := "completed";
     total_components := 2;
     vulnerable_count := 1;
     critical_count := 1;
     high_count := 0;
     medium_count := 0;
     low_count := 0;
     scan_duration_seconds := None |}.

Definition finding_1 : ScanVulnerability :=
  {| scan_result_id := 1;
     vulnerability_id := 1;
     component_name := "log4j-core";
     component_version := "2.14.1";
     matched_cpe := Some "cpe:2.3:a:apache:log4j:*" |}.

Definition store : Tables :=
  {| sboms := [examples.sbom_1];
     vulnerabilities := [examples.log4shell (Some "CRITICAL")];
     scan_results := [scan_1];
     scan_vulnerabilities := [finding_1] |}.

End scanned.

(** ** backend/app/services/sbom_parser.py: the extractors

    [Component] is a plain class, so an attribute holds whatever value the
    document has under its key. The result of an extractor is the
    dictionary it returns; [serial_number] is [None] where the dictionary
    has no such key. *)

Module extractors.
Import pystr pyjson.
Local Open Scope result_scope.

(** [Element.findall] and [Element.find] of the standard library, with
    their [namespaces] argument, [None] when it is not given. *)
Class ElementPath := {
  findall : Element -> string -> option (list (string * string)) -> list Element;
  find : Element -> string -> option (list (string * string)) -> option Element
}.

Record Component := {
  name : json;
  version : json;
  purl : json;
  component_type : json
}.

Record Parsed := {
  format : string;
  spec_version : json;
  components : list Component;
  metadata : list (string * json);
  serial_number : option json;
  raw_data : json
}.

(** The values [for x in v] goes through: the items of a list, the keys
    of a dictionary, the characters of a string. *)
Definition iter (v : json) : result (list json) :=
  match v with
  | JArray items => Ok items
  | JObject members => Ok (map (fun member => JString (fst member)) members)
  | JString s =>
      Ok (map (fun c => JString (String c EmptyString)) (list_ascii_of_string s))
  | _ => Raise TypeError
  end.

(** The loop that appends [body x] for each [x]; it ends at the first
    exception. *)
Fixpoint for_each {A B} (body : A -> result B) (l : list A) : result (list B) :=
  match l with
  | [] => Ok []
  | x :: l' =>
      let* y := body x in
      let* ys := for_each body l' in
      Ok (y :: ys)
  end.

Definition text (e : Element) : option string :=
  match e with mkElement _ _ t _ => t end.

Definition attrib (e : Element) : list (string * string) :=
  match e with mkElement _ a _ _ => a end.

(** [e.get(key)] *)
Definition attrib_get (e : Element) (key : string) : option string :=
  snd <$> List.find (fun a => String.eqb (fst a) key) (attrib e).

(** a text that may be [None] *)
Definition optional (s : option string) : json :=
  match s with
  | Some s => JString s
  | None => JNull
  end.

(** [elem.text if elem is not None else default] *)
Definition text_or (elem : option Element) (default : json) : json :=
  match elem with
  | Some e => optional (text e)
  | None => default
  end.

Module CycloneDXParser.

Definition component (comp : json) : result Component :=
  let* name := get comp "name" (JString "unknown") in
  let* version := get comp "version" (JString "unknown") in
  let* purl := get comp "purl" JNull in
  let* component_type := get comp "type" (JString "library") in
  Ok {| name := name; version := version; purl := purl;
        component_type := component_type |}.

Definition parse_json (data : json) : result Parsed :=
  let* listed := get data "components" (JArray []) in
  let* items := iter listed in
  let* components := for_each component items in
  let* metadata := get data "metadata" (JObject []) in
  let* spec_version := get data "specVersion" (JString "unknown") in
  let* timestamp := get metadata "timestamp" JNull in
  let* tools := get metadata "tools" (JArray []) in
  let* described := get metadata "component" (JObject []) in
  let* serial_number := get data "serialNumber" JNull in
  Ok {| format := "cyclonedx";
        spec_version := spec_version;
        components := components;
        metadata := [("timestamp", timestamp); ("tools", tools);
                     ("component", described)];
        serial_number := Some serial_number;
        raw_data := data |}.

Definition ns : option (list (string * string)) :=
  Some [("", "http://cyclonedx.org/schema/bom/1.4")].

Definition component_xml `{ElementPath} (comp : Element) : Component :=
  {| name := text_or (find comp "name" ns) (JString "unknown");
     version := text_or (find comp "version" ns) (JString "unknown");
     purl := text_or (find comp "purl" ns) JNull;
     component_type := JString (default "library" (attrib_get comp "type")) |}.

Definition parse_xml `{ElementPath} (root : Element) : Parsed :=
  {| format := "cyclonedx";
     spec_version := JString (default "unknown" (attrib_get root "version"));
     components := map component_xml (findall root ".//components/component" ns);
     metadata := [];
     serial_number := Some (optional (attrib_get root "serialNumber"));
     raw_data := JObject [] |}.

End CycloneDXParser.

Module SPDXParser.

Definition component (pkg : json) : result Component :=
  let* name := get pkg "name" (JString "unknown") in
  let* version := get pkg "versionInfo" (JString "unknown") in
  Ok {| name := name; version := version; purl := JNull;
        component_type := JString "library" |}.

Definition parse_json (data : json) : result Parsed :=
  let* listed := get data "packages" (JArray []) in
  let* items := iter listed in
  let* components := for_each component items in
  let* spec_version := get data "spdxVersion" (JString "unknown") in
  let* creation := get data "creationInfo" (JObject []) in
  let* created := get creation "created" JNull in
  let* creation := get data "creationInfo" (JObject []) in
  let* creators := get creation "creators" (JArray []) in
  let* document_name := get data "name" JNull in
  Ok {| format := "spdx";
        spec_version := spec_version;
        components := components;
        metadata := [("created", created); ("creators", creators);
                     ("document_name", document_name)];
        serial_number := None;
        raw_data := data |}.

Definition component_xml `{ElementPath} (pkg : Element) : Component :=
  {| name := text_or (find pkg "name" None) (JString "unknown");
     version := text_or (find pkg "versionInfo" None) (JString "unknown");
     purl := JNull;
     component_type := JString "library" |}.

Definition parse_xml `{ElementPath} (root : Element) : Parsed :=
  {| format := "spdx";
     spec_version := JString (default "unknown" (attrib_get root "spdxVersion"));
     components := map component_xml (findall root ".//Package" None);
     metadata := [];
     serial_number := None;
     raw_data := JObject [] |}.

End SPDXParser.

(** The call a parse ends in, carried out. *)
Definition extract `{ElementPath} (call : sbom_parser.extractor_call)
    : result Parsed :=
  match call with
  | sbom_parser.CycloneDXParser_parse_json data => CycloneDXParser.parse_json data
  | sbom_parser.SPDXParser_parse_json data => SPDXParser.parse_json data
  | sbom_parser.CycloneDXParser_parse_xml root => Ok (CycloneDXParser.parse_xml root)
  | sbom_parser.SPDXParser_parse_xml root => Ok (SPDXParser.parse_xml root)
  end.

(** [SBOMParser.parse] with its extractor. The extractor runs inside the
    [try] of [parse], so what it raises goes through the same handler as
    what the inspection of the document raises. *)
Definition parse_sbom `{StrLower} `{Decoders} `{ElementPath}
    (content filename : string) : result Parsed :=
  let* call := sbom_parser.parse content filename in
  result_catch (extract call)
    (fun e => Raise (SBOMParserException ("Failed to parse SBOM: " ++ exn_str e))).

(** [extract_components_from_sbom] *)
Definition extract_components_from_sbom (sbom_data : Parsed) : list Component :=
  components sbom_data.

(** The row [upload_sbom_file] stores for a parsed file, under the key
    the database gives it (routers/sbom.py, lines 96-102). *)
Definition stored (id filename : string) (parsed_data : Parsed) : models.SBOM :=
  {| models.sbom_id := id;
     models.filename := filename;
     models.format := format parsed_data;
     models.content_json := raw_data parsed_data |}.

(** [component_count] of the upload's answer (line 122) *)
Definition component_count (parsed_data : Parsed) : nat :=
  length (components parsed_data).

End extractors.

(** ** An uploaded CycloneDX file *)

Module uploaded.
Import extractors.

(** The paths of a document in which they find nothing. *)
Definition no_match : ElementPath :=
  {| findall := fun _ _ _ => [];
     find := fun _ _ _ => None |}.

Definition document : json := models.content_json examples.sbom_1.

(** The file [bom.json] holds [document]. *)
Definition decoders : Decoders :=
  decoders_of document (mkElement "bom" [] None []).

(** What the CycloneDX extractor makes of [document]. *)
Definition parsed : Parsed :=
  {| format := "cyclonedx";
     spec_version := JString "unknown";
     components :=
       [{| name := JString "log4j-core"; version := JString "2.14.1";
           purl := JNull; component_type := JString "library" |};
        {| name := JString "log4j-api"; version := JString "2.14.1";
           purl := JNull; component_type := JString "library" |}];
     metadata := [("timestamp", JNull); ("tools", JArray []);
                  ("component", JObject [])];
     serial_number := Some JNull;
     raw_data := document |}.

End uploaded.

(** * Properties *)

(** ** Strings *)

Section string_facts.
Import pystr spec.

Lemma az09_not_underscore c : is_az09 c = true -> Ascii.eqb c underscore = false.
Proof.
  intros Hc. destruct (Ascii.eqb_spec c underscore) as [->|]; [|reflexivity].
  discriminate Hc.
Qed.

Lemma collapse_sub_is_collapse_runs s : forall prev,
  collapse_underscores prev (re_sub_non_az09 s) = spec.collapse_runs prev s.
Proof.
  induction s as [|c s IH]; intros prev; simpl; [reflexivity|].
  destruct (is_az09 c) eqn:Hc.
  - rewrite (az09_not_underscore c Hc), IH. reflexivity.
  - rewrite Ascii.eqb_refl. destruct prev; rewrite IH; reflexivity.
Qed.

Lemma re_sub_non_az09_chars s : Forall name_char (chars (re_sub_non_az09 s)).
Proof.
  induction s as [|c s IH]; simpl; constructor; [|exact IH].
  destruct (is_az09 c) eqn:Hc; [left; exact Hc | right; reflexivity].
Qed.

Lemma collapse_underscores_chars (P : ascii -> Prop) s : forall prev,
  Forall P (chars s) -> Forall P (chars (collapse_underscores prev s)).
Proof.
  induction s as [|c s IH]; intros prev Hs; simpl; [constructor|].
  inversion Hs as [|? ? Hc Hs']; subst.
  destruct (Ascii.eqb_spec c underscore) as [->|Hne].
  - destruct prev; [apply IH; exact Hs' | constructor; [exact Hc | apply IH; exact Hs']].
  - constructor; [exact Hc | apply IH; exact Hs'].
Qed.

Lemma lstrip_underscore_chars (P : ascii -> Prop) s :
  Forall P (chars s) -> Forall P (chars (lstrip_underscore s)).
Proof.
  induction s as [|c s IH]; intros Hs; simpl; [constructor|].
  destruct (Ascii.eqb c underscore); [|exact Hs].
  inversion Hs; subst. apply IH. assumption.
Qed.

Lemma rstrip_underscore_chars (P : ascii -> Prop) s :
  Forall P (chars s) -> Forall P (chars (rstrip_underscore s)).
Proof.
  induction s as [|c s IH]; intros Hs; simpl; [constructor|].
  inversion Hs as [|? ? Hc Hs']; subst. specialize (IH Hs').
  destruct (rstrip_underscore s) as [|d r].
  - destruct (Ascii.eqb c underscore); repeat constructor. exact Hc.
  - constructor; assumption.
Qed.

Lemma collapse_underscores_no_double s : forall prev,
  has_double_underscore (collapse_underscores prev s) = false /\
  (prev = true -> starts_with_underscore (collapse_underscores prev s) = false).
Proof.
  induction s as [|c s IH]; intros prev; simpl; [split; reflexivity|].
  destruct (Ascii.eqb_spec c underscore) as [->|Hne].
  - destruct (IH true) as [Hd Hs]. specialize (Hs eq_refl).
    destruct prev; [split; [exact Hd | intros _; exact Hs]|].
    split; [|discriminate].
    simpl. destruct (collapse_underscores true s) as [|b r] eqn:E; [reflexivity|].
    simpl in Hs. rewrite Hs, Hd. reflexivity.
  - destruct (IH false) as [Hd _].
    assert (Hc : Ascii.eqb c underscore = false)
      by (destruct (Ascii.eqb_spec c underscore); congruence).
    split.
    + simpl. destruct (collapse_underscores false s) as [|b r] eqn:E; [reflexivity|].
      rewrite Hc, Hd. reflexivity.
    + intros _. simpl. exact Hc.
Qed.

Lemma has_double_tail c s :
  has_double_underscore (String c s) = false -> has_double_underscore s = false.
Proof.
  simpl. destruct s as [|b r]; [reflexivity|].
  intros H. apply orb_false_iff in H. apply H.
Qed.

Lemma lstrip_no_double s :
  has_double_underscore s = false -> has_double_underscore (lstrip_underscore s) = false.
Proof.
  induction s as [|c s IH]; intros Hs; [reflexivity|].
  simpl. destruct (Ascii.eqb c underscore); [|exact Hs].
  apply IH. exact (has_double_tail c s Hs).
Qed.

Lemma lstrip_no_leading s : starts_with_underscore (lstrip_underscore s) = false.
Proof.
  induction s as [|c s IH]; [reflexivity|].
  simpl. destruct (Ascii.eqb c underscore) eqn:E; [exact IH | simpl; exact E].
Qed.

Lemma rstrip_head c s :
  rstrip_underscore (String c s) = EmptyString \/
  exists r, rstrip_underscore (String c s) = String c r.
Proof.
  simpl. destruct (rstrip_underscore s) as [|d r].
  - destruct (Ascii.eqb c underscore); [left; reflexivity | right; eexists; reflexivity].
  - right. eexists. reflexivity.
Qed.

Lemma rstrip_no_leading s :
  starts_with_underscore s = false ->
  starts_with_underscore (rstrip_underscore s) = false.
Proof.
  destruct s as [|c s]; [reflexivity|]. intros Hs.
  destruct (rstrip_head c s) as [-> | [r ->]]; [reflexivity | exact Hs].
Qed.

Lemma rstrip_no_double s :
  has_double_underscore s = false -> has_double_underscore (rstrip_underscore s) = false.
Proof.
  induction s as [|c s IH]; intros Hs; [reflexivity|].
  pose proof (has_double_tail c s Hs) as Ht. specialize (IH Ht).
  simpl. destruct (rstrip_underscore s) as [|d r] eqn:E.
  - destruct (Ascii.eqb c underscore); reflexivity.
  - destruct s as [|b s']; [discriminate E|].
    destruct (rstrip_head b s') as [E' | [r' E']]; rewrite E' in E; [discriminate|].
    injection E as <- <-.
    simpl in Hs. apply orb_false_iff in Hs. destruct Hs as [Hcb _].
    change (has_double_underscore (String c (String b r')))
      with ((Ascii.eqb c underscore && Ascii.eqb b underscore)
            || has_double_underscore (String b r')).
    rewrite Hcb, IH. reflexivity.
Qed.

Lemma rstrip_no_trailing s : forall t,
  rstrip_underscore s <> (t ++ String underscore EmptyString)%string.
Proof.
  induction s as [|c s IH]; intros t.
  - simpl. destruct t; discriminate.
  - simpl. destruct (rstrip_underscore s) as [|d r] eqn:E.
    + destruct (Ascii.eqb_spec c underscore) as [->|Hne].
      * destruct t; discriminate.
      * destruct t as [|a t]; simpl.
        -- intros Heq. injection Heq as Heq. exact (Hne Heq).
        -- destruct t; discriminate.
    + destruct t as [|a t]; simpl; [discriminate|].
      intros Heq. injection Heq as _ Heq. exact (IH t Heq).
Qed.

Lemma no_leading_append s :
  starts_with_underscore s = false -> forall t, s <> String underscore t.
Proof.
  intros Hs t ->. discriminate Hs.
Qed.

Lemma no_double_append s :
  has_double_underscore s = false ->
  forall a b, s <> (a ++ String underscore (String underscore b))%string.
Proof.
  intros Hs a. revert s Hs.
  induction a as [|c a IH]; intros s Hs b ->.
  - simpl in Hs. discriminate.
  - apply (IH _ (has_double_tail _ _ Hs) b). reflexivity.
Qed.

End string_facts.

(** ** The matcher (scanner.py) *)

Section scanner_facts.
Import pystr spec sbom_parser models database scanner.

(** C3. Name normalization is a total function of the name alone: its
    result is the lowercase of the input with every run of
    non-alphanumeric characters collapsed to one underscore and the
    leading and trailing underscores stripped; it contains only
    characters of [a-z0-9_] and has no leading, trailing or doubled
    underscore. *)
Theorem normalize_component_name_correct `{StrLower} (name : string) :
  let normalized := _normalize_component_name name in
  normalized = NormalizedName name /\
  Forall name_char (chars normalized) /\
  (forall t, normalized <> ("_" ++ t)%string) /\
  (forall t, normalized <> (t ++ "_")%string) /\
  (forall a b, normalized <> (a ++ "__" ++ b)%string).
Proof.
  unfold _normalize_component_name, NormalizedName, re_sub_underscores,
    strip_underscore.
  set (lowered := str_lower name).
  pose proof (collapse_underscores_no_double (re_sub_non_az09 lowered) false)
    as [Hdouble _].
  cbv zeta. repeat split.
  - rewrite collapse_sub_is_collapse_runs. reflexivity.
  - apply rstrip_underscore_chars, lstrip_underscore_chars,
      collapse_underscores_chars, re_sub_non_az09_chars.
  - apply no_leading_append, rstrip_no_leading, lstrip_no_leading.
  - apply rstrip_no_trailing.
  - apply no_double_append, rstrip_no_double, lstrip_no_double, Hdouble.
Qed.

Section version_range_facts.
Context `{PkgVersion}.

Lemma bound_rejects_parseable bound (out_of_range : Version -> bool) :
  parseable bound ->
  exists r, bound_rejects bound out_of_range = Some r /\
            (r = false <-> bound_holds bound (fun b => negb (out_of_range b))).
Proof.
  unfold parseable, bound_rejects, bound_holds. intros Hparse.
  destruct (truthy bound) as [s|] eqn:Hs.
  - destruct (Hparse s eq_refl) as [b Hb]. rewrite Hb. simpl.
    exists (out_of_range b). split; [reflexivity|]. split.
    + intros Hr s' b' Hs' Hb'. injection Hs' as <-.
      rewrite Hb in Hb'. injection Hb' as <-. rewrite Hr. reflexivity.
    + intros Hall. specialize (Hall s b eq_refl Hb).
      apply negb_true_iff in Hall. exact Hall.
  - exists false. split; [reflexivity|]. split; [|reflexivity].
    intros _ s b Hs'. discriminate Hs'.
Qed.

Lemma bound_holds_ext bound (f g : Version -> bool) :
  (forall b, f b = g b) -> bound_holds bound f <-> bound_holds bound g.
Proof.
  intros Hfg. unfold bound_holds.
  split; intros Hall s b Hs Hb; [rewrite <- Hfg | rewrite Hfg]; eauto.
Qed.

Lemma not_vlt_vge (a b : Version) : negb (vlt a b) = vge a b.
Proof. unfold vlt, vge. destruct (vcompare a b); reflexivity. Qed.
Lemma not_vle_vgt (a b : Version) : negb (vle a b) = vgt a b.
Proof. unfold vle, vgt. destruct (vcompare a b); reflexivity. Qed.
Lemma not_vgt_vle (a b : Version) : negb (vgt a b) = vle a b.
Proof. unfold vle, vgt. destruct (vcompare a b); reflexivity. Qed.
Lemma not_vge_vlt (a b : Version) : negb (vge a b) = vlt a b.
Proof. unfold vlt, vge. destruct (vcompare a b); reflexivity. Qed.

Lemma check_version_range_parsed v cv si se ei ee :
  pkg_version_parse v = Some cv ->
  parseable si -> parseable se -> parseable ei -> parseable ee ->
  _check_version_range v si se ei ee = true <-> in_range cv si se ei ee.
Proof.
  intros Hv Hsi Hse Hei Hee.
  unfold _check_version_range, _check_version_range_try, in_range.
  rewrite Hv. simpl.
  destruct (bound_rejects_parseable si (fun b => vlt cv b) Hsi) as (r1 & -> & H1).
  destruct (bound_rejects_parseable se (fun b => vle cv b) Hse) as (r2 & E2 & H2).
  destruct (bound_rejects_parseable ei (fun b => vgt cv b) Hei) as (r3 & E3 & H3).
  destruct (bound_rejects_parseable ee (fun b => vge cv b) Hee) as (r4 & E4 & H4).
  rewrite (bound_holds_ext si _ _ (not_vlt_vge cv)) in H1.
  rewrite (bound_holds_ext se _ _ (not_vle_vgt cv)) in H2.
  rewrite (bound_holds_ext ei _ _ (not_vgt_vle cv)) in H3.
  rewrite (bound_holds_ext ee _ _ (not_vge_vlt cv)) in H4.
  simpl.
  destruct r1; simpl.
  { split; [discriminate|]. intros (Hb & _). apply H1 in Hb. discriminate. }
  rewrite E2. simpl. destruct r2; simpl.
  { split; [discriminate|]. intros (_ & Hb & _). apply H2 in Hb. discriminate. }
  rewrite E3. simpl. destruct r3; simpl.
  { split; [discriminate|]. intros (_ & _ & Hb & _). apply H3 in Hb. discriminate. }
  rewrite E4. simpl. destruct r4; simpl.
  { split; [discriminate|]. intros (_ & _ & _ & Hb). apply H4 in Hb. discriminate. }
  split; [|reflexivity]. intros _.
  repeat split; [apply H1 | apply H2 | apply H3 | apply H4]; reflexivity.
Qed.

Lemma check_version_range_unparsed v si se ei ee :
  pkg_version_parse v = None ->
  _check_version_range v si se ei ee =
  match truthy si with
  | Some s => String.eqb v s
  | None => false
  end.
Proof.
  intros Hv. unfold _check_version_range, _check_version_range_try.
  rewrite Hv. reflexivity.
Qed.

End version_range_facts.

(** C1. When the component version and every present bound parse, the
    version-range check answers true exactly when every present bound
    holds ([v >= startIncl], [v > startExcl], [v <= endIncl],
    [v < endExcl]); absent bounds impose nothing. With [startIncl = 1.0]
    and [endExcl = 2.0]: 0.9 is out, 1.0 and 1.9.9 are in, 2.0 is out. *)
Theorem check_version_range_correct :
  (forall (P : PkgVersion) v cv startIncl startExcl endIncl endExcl,
     pkg_version_parse v = Some cv ->
     parseable startIncl -> parseable startExcl ->
     parseable endIncl -> parseable endExcl ->
     _check_version_range v startIncl startExcl endIncl endExcl = true <->
     in_range cv startIncl startExcl endIncl endExcl) /\
  (let check v :=
     @_check_version_range release_version v (Some "1.0") None None (Some "2.0") in
   check "0.9" = false /\ check "1.0" = true /\
   check "1.9.9" = true /\ check "2.0" = false).
Proof.
  split.
  - intros P v cv si se ei ee. apply check_version_range_parsed.
  - cbv zeta. repeat split; vm_compute; reflexivity.
Qed.

Lemma check_version_range_correct_witness :
  @pkg_version_parse release_version "1.5" = Some [1%N; 5%N] /\
  (@_check_version_range release_version "1.5" (Some "1.0") None None (Some "2.0") = true <->
   @in_range release_version [1%N; 5%N] (Some "1.0") None None (Some "2.0")).
Proof.
  split; [reflexivity|].
  apply (proj1 check_version_range_correct release_version "1.5" [1%N; 5%N]).
  - reflexivity.
  - intros s Hs. injection Hs as <-. eexists. reflexivity.
  - intros s Hs. discriminate Hs.
  - intros s Hs. discriminate Hs.
  - intros s Hs. injection Hs as <-. eexists. reflexivity.
Defined.

(** C6. When the component version does not parse, the check answers true
    exactly when [startIncl] is present and equal to the version string,
    whatever the other bounds are; nothing is raised. *)
Theorem check_version_range_fallback `{PkgVersion} v startIncl startExcl endIncl endExcl :
  pkg_version_parse v = None ->
  (_check_version_range v startIncl startExcl endIncl endExcl = true <->
   exists s, truthy startIncl = Some s /\ v = s) /\
  (truthy startIncl = None ->
   _check_version_range v startIncl startExcl endIncl endExcl = false).
Proof.
  intros Hv. rewrite (check_version_range_unparsed v _ _ _ _ Hv).
  destruct (truthy startIncl) as [s|].
  - split; [|discriminate]. split.
    + intros Heq. apply String.eqb_eq in Heq. eauto.
    + intros (s' & Hs & ->). injection Hs as ->. apply String.eqb_refl.
  - split; [|reflexivity]. split; [discriminate|].
    intros (s & Hs & _). discriminate Hs.
Qed.

Lemma check_version_range_fallback_witness :
  (@_check_version_range release_version "unknown" (Some "unknown") None None (Some "2.0") = true <->
   exists s, truthy (Some "unknown") = Some s /\ "unknown" = s) /\
  (truthy (Some "unknown") = None ->
   @_check_version_range release_version "unknown" (Some "unknown") None None (Some "2.0") = false).
Proof.
  apply (@check_version_range_fallback release_version "unknown").
  reflexivity.
Defined.

Lemma str_in_empty s : str_in "" s = true.
Proof. destruct s; reflexivity. Qed.

Lemma ltb_ge_5 (n : nat) : (n <? 5)%nat = false <-> (5 <= n)%nat.
Proof. rewrite Nat.ltb_ge. reflexivity. Qed.

(** The code's test, field by field. *)
Lemma match_cpe_product_unfold `{StrLower} cpe component_name :
  _match_cpe_product cpe component_name =
  (5 <=? length (cpe_fields cpe))%nat &&
  (str_in (cpe_product cpe) component_name ||
   str_in component_name (cpe_product cpe) ||
   negb (String.eqb (cpe_vendor cpe) "") &&
   (str_in (cpe_vendor cpe) component_name ||
    str_in (cpe_vendor cpe ++ "_" ++ cpe_product cpe) component_name)).
Proof.
  unfold _match_cpe_product, cpe_product, cpe_vendor, cpe_fields.
  set (parts := str_split ":" cpe).
  destruct (Nat.ltb_spec (length parts) 5) as [Hlt|Hge].
  - replace (5 <=? length parts)%nat with false; [reflexivity|].
    symmetry. apply Nat.leb_gt. exact Hlt.
  - replace (5 <=? length parts)%nat with true
      by (symmetry; apply Nat.leb_le; exact Hge).
    replace (3 <? length parts)%nat with true
      by (symmetry; apply Nat.ltb_lt; lia).
    simpl.
    destruct (str_in (str_lower (nth 4 parts "")) component_name
              || str_in component_name (str_lower (nth 4 parts ""))); simpl;
      [reflexivity|].
    destruct (negb (str_lower (nth 3 parts "") =? "")%string &&
              (str_in (str_lower (nth 3 parts "")) component_name
               || str_in (str_lower (nth 3 parts "") ++ "_" ++ str_lower (nth 4 parts ""))
                    component_name)); reflexivity.
Qed.

(** C2, as the code has it. A criterion with fewer than five
    colon-delimited fields is never name-eligible. Otherwise, with vendor
    and product the lowercased 4th and 5th fields, it is name-eligible
    exactly when the product is a substring of the normalized name, or
    the name of the product, or the vendor is not empty and the vendor or
    [<vendor>_<product>] is a substring of the name. *)
Theorem match_cpe_product_correct `{StrLower} (cpe normalized_name : string) :
  _match_cpe_product cpe normalized_name = true <->
  (5 <= length (cpe_fields cpe))%nat /\
  (str_in (cpe_product cpe) normalized_name = true \/
   str_in normalized_name (cpe_product cpe) = true \/
   (cpe_vendor cpe <> "" /\
    (str_in (cpe_vendor cpe) normalized_name = true \/
     str_in (cpe_vendor cpe ++ "_" ++ cpe_product cpe) normalized_name = true))).
Proof.
  rewrite match_cpe_product_unfold.
  rewrite andb_true_iff, !orb_true_iff, andb_true_iff, orb_true_iff,
    negb_true_iff, Nat.leb_le.
  assert (Hv : (cpe_vendor cpe =? "")%string = false <-> cpe_vendor cpe <> "").
  { destruct (String.eqb_spec (cpe_vendor cpe) ""); split; congruence. }
  rewrite Hv. tauto.
Qed.

(** C2 as stated fails on a criterion whose vendor field is empty: the
    empty vendor is a substring of every name, yet the code requires a
    non-empty vendor. *)
Lemma match_cpe_product_empty_vendor :
  @name_eligible ascii_str_lower "cpe:2.3:a::foo:1.0" "bar" = true /\
  @_match_cpe_product ascii_str_lower "cpe:2.3:a::foo:1.0" "bar" = false.
Proof. split; vm_compute; reflexivity. Qed.

(** C10. A criterion with at least five colon-delimited fields and an
    empty product field is name-eligible for every component: the
    vulnerability that carries it matches exactly the components whose
    version passes its range check. *)
Theorem empty_product_matches_every_name `{StrLower} `{PkgVersion}
    (cpe : string) (m : CpeMatch) :
  str_lower "" = "" ->
  (5 <= length (str_split ":" cpe))%nat ->
  nth 4 (str_split ":" cpe) "" = "" ->
  criteria m = Some cpe ->
  (forall normalized_name, _match_cpe_product cpe normalized_name = true) /\
  (forall component vuln,
     cpe_match vuln = Some [m] ->
     _is_vulnerable component vuln =
     _check_version_range (version component)
       (versionStartIncluding m) (versionStartExcluding m)
       (versionEndIncluding m) (versionEndExcluding m)) /\
  (forall component vuln ms,
     cpe_match vuln = Some ms -> In m ms ->
     _check_version_range (version component)
       (versionStartIncluding m) (versionStartExcluding m)
       (versionEndIncluding m) (versionEndExcluding m) = true ->
     _is_vulnerable component vuln = true).
Proof.
  intros Hlower Hlen Hfield Hcrit.
  assert (Hname : forall normalized_name, _match_cpe_product cpe normalized_name = true).
  { intros normalized_name. rewrite match_cpe_product_unfold.
    unfold cpe_product, cpe_fields. rewrite Hfield, Hlower, str_in_empty.
    apply Nat.leb_le in Hlen. rewrite Hlen. reflexivity. }
  split; [exact Hname|]. split.
  - intros component vuln Hv. unfold _is_vulnerable. rewrite Hv. simpl.
    rewrite Hcrit. simpl. rewrite Hname, orb_false_r. reflexivity.
  - intros component vuln ms Hv Hin Hcheck. unfold _is_vulnerable. rewrite Hv.
    destruct ms as [|m0 ms']; [destruct Hin|].
    apply existsb_exists. exists m. split; [exact Hin|].
    rewrite Hcrit. simpl. rewrite Hname, Hcheck. reflexivity.
Qed.

Lemma empty_product_matches_every_name_witness :
  (5 <= length (str_split ":" "cpe:2.3:a:acme::*"))%nat /\
  (forall normalized_name,
     @_match_cpe_product ascii_str_lower "cpe:2.3:a:acme::*" normalized_name = true).
Proof.
  split; [vm_compute; lia|].
  apply (proj1 (@empty_product_matches_every_name ascii_str_lower release_version
                  "cpe:2.3:a:acme::*"
                  {| criteria := Some "cpe:2.3:a:acme::*";
                     versionStartIncluding := Some "1.0";
                     versionStartExcluding := None;
                     versionEndIncluding := None;
                     versionEndExcluding := Some "2.0" |}
                  eq_refl ltac:(vm_compute; lia) eq_refl eq_refl)).
Defined.

(** *** Severity tallies *)

Lemma sum_counts_insert_fresh (counts : gmap string nat) k n :
  counts !! k = None -> sum_counts (<[k := n]> counts) = n + sum_counts counts.
Proof.
  intros Hk. unfold sum_counts. rewrite (map_to_list_insert _ _ _ Hk). reflexivity.
Qed.

Lemma sum_counts_insert (counts : gmap string nat) k n :
  sum_counts (<[k := n]> counts) + default 0 (counts !! k) = n + sum_counts counts.
Proof.
  destruct (counts !! k) as [old|] eqn:Hk; simpl.
  - rewrite <- (insert_delete_eq counts k n).
    rewrite <- (insert_id counts k old Hk) at 2.
    rewrite <- (insert_delete_eq counts k old).
    rewrite !sum_counts_insert_fresh by apply lookup_delete_eq. lia.
  - rewrite sum_counts_insert_fresh by exact Hk. lia.
Qed.

(** Every match adds one to the bucket named by the severity, or by
    [UNKNOWN] when the severity is absent or empty, and to no other. *)
Lemma count_severity_lookup counts vuln k :
  let severity := default "UNKNOWN" (truthy (severity vuln)) in
  count_severity counts vuln !! k =
  if decide (k = severity) then Some (default 0 (counts !! k) + 1) else counts !! k.
Proof.
  cbv zeta. unfold count_severity.
  destruct (decide (k = default "UNKNOWN" (truthy (severity vuln)))) as [->|Hne].
  - apply lookup_insert_eq.
  - apply lookup_insert_ne. congruence.
Qed.

Lemma count_severity_sum counts vuln :
  sum_counts (count_severity counts vuln) = sum_counts counts + 1.
Proof.
  unfold count_severity.
  pose proof (sum_counts_insert counts
                (default "UNKNOWN" (truthy (severity vuln)))
                (default 0 (counts !! default "UNKNOWN" (truthy (severity vuln))) + 1)).
  lia.
Qed.

Lemma fold_count_severity_sum vulns : forall counts,
  sum_counts (fold_left count_severity vulns counts) = sum_counts counts + length vulns.
Proof.
  induction vulns as [|v vulns IH]; intros counts; simpl; [lia|].
  rewrite IH, count_severity_sum. lia.
Qed.

(** *** The scan loop *)

Section scan_loop.
Context `{StrLower} `{PkgVersion}.
Variable session : Session.

Lemma vulnerable_cons c cs :
  vulnerable session (c :: cs) =
  match _find_vulnerabilities_for_component session c with
  | [] => vulnerable session cs
  | _ => c :: vulnerable session cs
  end.
Proof.
  unfold vulnerable. rewrite filter_cons.
  destruct (_find_vulnerabilities_for_component session c) as [|v vs].
  - rewrite decide_False by (intros Hne; apply Hne; reflexivity). reflexivity.
  - rewrite decide_True by discriminate. reflexivity.
Qed.

Lemma scan_loop_invariant components : forall res,
  let res' := fold_left (scan_component session) components res in
  sum_counts (severity_counts res') =
    sum_counts (severity_counts res) + length (match_pairs session components) /\
  length (vulnerable_components res') =
    length (vulnerable_components res) + length (vulnerable session components) /\
  length (vulnerabilities_found res') =
    length (vulnerabilities_found res) + length (match_pairs session components) /\
  total_components res' = total_components res.
Proof.
  induction components as [|c cs IH]; intros res; cbv zeta.
  - simpl. repeat split; lia.
  - change (fold_left (scan_component session) (c :: cs) res)
      with (fold_left (scan_component session) cs (scan_component session res c)).
    destruct (IH (scan_component session res c)) as (Hsum & Hvc & Hfound & Htotal).
    rewrite Hsum, Hvc, Hfound, Htotal. clear IH Hsum Hvc Hfound Htotal.
    rewrite vulnerable_cons. unfold match_pairs. simpl flat_map.
    rewrite length_app, length_map. fold (match_pairs session cs).
    unfold scan_component.
    destruct (_find_vulnerabilities_for_component session c) as [|v vs] eqn:Hfind.
    + simpl. repeat split; lia.
    + cbn [severity_counts vulnerable_components vulnerabilities_found
           total_components].
      rewrite fold_count_severity_sum, !length_app. simpl. repeat split; lia.
Qed.

End scan_loop.

(** Scenario A: [log4j-core] 2.14.1 against a criterion on
    [apache:log4j] that ends before 2.15.0. *)
Example scan_log4j :
  let res :=
    @scan_components ascii_str_lower release_version
      (SessionLocal (examples.store (Some "CRITICAL"))) [examples.log4j_core] in
  map (fun '(c, vs) => (name c, map cve_id vs)) (vulnerable_components res) =
    [("log4j-core", ["CVE-2021-44228"])] /\
  severity_counts res !! "CRITICAL" = Some 1 /\
  total_components res = 1.
Proof. cbv zeta. repeat split; vm_compute; reflexivity. Qed.

Lemma sum_counts_initial : sum_counts initial_severity_counts = 0.
Proof. reflexivity. Qed.

(** What [save_scan_result] returns is the row it built before writing. *)
Lemma save_scan_result_row sbom_id res duration s row s' :
  save_scan_result sbom_id res duration s = (Ok row, s') ->
  vulnerable_count row = length (vulnerable_components res) /\
  models.total_components row = total_components res.
Proof.
  unfold save_scan_result, try_except.
  match goal with
  | |- context [match ?body s with _ => _ end] => destruct (body s) as [[y|e] s1] eqn:Hbody
  end.
  2:{ unfold bind, rollback, raise. discriminate. }
  intros Heq. injection Heq as -> ->.
  revert Hbody. unfold bind at 1. unfold query at 1.
  unfold bind at 1. unfold add at 1.
  unfold bind at 1.
  match goal with
  | |- context [flush ?s0] => destruct (flush s0) as [[[]|e] s2]
  end; [|discriminate].
  match goal with
  | |- context [ret ?x] => set (built := x)
  end.
  assert (Hfold : forall l s0 y s3,
    fold_right
      (fun '(component, vulns) rest =>
         fold_right
           (fun vulnerability rest' =>
              bind (add (ScanVulnerabilityRow
                      {| scan_result_id := sr_id built;
                         vulnerability_id := v_id vulnerability;
                         component_name := name component;
                         component_version := version component;
                         matched_cpe := _extract_matched_cpe component vulnerability |}))
                (fun _ => rest'))
           rest vulns)
      (bind commit (fun _ => ret built)) l s0 = (Ok y, s3) -> y = built).
  { induction l as [|[component vulns] l IHl]; intros s0 y s3; simpl.
    - unfold bind. destruct (commit s0) as [[[]|e] s4]; [|discriminate].
      unfold ret. congruence.
    - induction vulns as [|v vulns IHv] in s0 |- *; simpl; [apply IHl|].
      unfold bind at 1. unfold add at 1. apply IHv. }
  intros Hrun. apply Hfold in Hrun. subst row. split; reflexivity.
Qed.

(** C5. The severity counts of a scan add up to the number of (component,
    vulnerability) match pairs, and the number of vulnerable components,
    which is the [vulnerable_count] of the saved row, is at most the number
    of components. *)
Theorem scan_components_totals `{StrLower} `{PkgVersion}
    (session : Session) (components : list Component) :
  let res := scan_components session components in
  sum_counts (severity_counts res) = length (match_pairs session components) /\
  length (vulnerable_components res) = length (vulnerable session components) /\
  length (vulnerable_components res) <= total_components res /\
  (forall sbom_id duration s row s',
     save_scan_result sbom_id res duration s = (Ok row, s') ->
     vulnerable_count row = length (vulnerable session components) /\
     vulnerable_count row <= models.total_components row).
Proof.
  cbv zeta. unfold scan_components.
  match goal with
  | |- context [fold_left _ _ ?init] =>
      destruct (scan_loop_invariant session components init)
        as (Hsum & Hvc & _ & Htotal)
  end.
  cbn [severity_counts vulnerable_components total_components] in Hsum, Hvc, Htotal.
  rewrite sum_counts_initial in Hsum. simpl in Hsum, Hvc.
  assert (Hle : length (vulnerable session components) <= length components)
    by apply length_filter.
  split; [lia|]. split; [lia|]. split; [lia|].
  intros sbom_id duration s row s' Hsave.
  apply save_scan_result_row in Hsave. lia.
Qed.

Lemma scan_components_totals_witness :
  match save_scan_result "sbom-1"
          (@scan_components ascii_str_lower release_version
             (SessionLocal (examples.store (Some "HIGH"))) [examples.log4j_core])
          3 (SessionLocal (examples.store (Some "HIGH"))) with
  | (Ok row, _) => vulnerable_count row = 1 /\ models.total_components row = 1
  | (Raise _, _) => False
  end.
Proof.
  destruct (save_scan_result "sbom-1"
              (@scan_components ascii_str_lower release_version
                 (SessionLocal (examples.store (Some "HIGH"))) [examples.log4j_core])
              3 (SessionLocal (examples.store (Some "HIGH"))))
    as [[row|e] s'] eqn:Hsave.
  - destruct (proj2 (proj2 (proj2
      (@scan_components_totals ascii_str_lower release_version
         (SessionLocal (examples.store (Some "HIGH"))) [examples.log4j_core])))
      "sbom-1" 3%Z _ row s' Hsave) as [Hcount _].
    apply save_scan_result_row in Hsave. destruct Hsave as [_ Htotal].
    split; [rewrite Hcount | rewrite Htotal]; vm_compute; reflexivity.
  - vm_compute in Hsave. discriminate Hsave.
Defined.

(** C4, where the code departs from it. A match whose severity is none of
    the five bucket names is not counted under [UNKNOWN]: the scan of a
    component matched by one vulnerability of severity [NONE] leaves
    [UNKNOWN] at zero and opens a bucket [NONE]. The match is still
    counted once, and an absent or empty severity is counted under
    [UNKNOWN]. *)
Theorem scan_components_unrecognized_severity :
  let scan severity :=
    @scan_components ascii_str_lower release_version
      (SessionLocal (examples.store severity)) [examples.log4j_core] in
  length (vulnerabilities_found (scan (Some "NONE"))) = 1 /\
  severity_counts (scan (Some "NONE")) !! "UNKNOWN" = Some 0 /\
  severity_counts (scan (Some "NONE")) !! "NONE" = Some 1 /\
  severity_counts (scan None) !! "UNKNOWN" = Some 1 /\
  severity_counts (scan (Some "")) !! "UNKNOWN" = Some 1.
Proof. cbv zeta. repeat split; vm_compute; reflexivity. Qed.

End scanner_facts.

(** ** The normalizer (sbom_parser.py) *)

Section sbom_parser_facts.
Import pystr pyjson sbom_parser.

Lemma is_string_true key v : is_string key v = true <-> v = JString key.
Proof.
  destruct v; simpl; try (split; [discriminate | congruence]).
  rewrite String.eqb_eq. split; congruence.
Qed.

Lemma is_string_option key (o : option json) :
  from_option (is_string key) false o = true <-> o = Some (JString key).
Proof.
  destruct o as [v|]; simpl; [|split; discriminate].
  rewrite is_string_true. split; congruence.
Qed.

Lemma route_json_object members :
  route_json (JObject members) =
  if from_option (is_string "CycloneDX") false (dict_get members "bomFormat")
  then Ok (CycloneDXParser_parse_json (JObject members))
  else if bool_decide (is_Some (dict_get members "spdxVersion"))
  then Ok (SPDXParser_parse_json (JObject members))
  else Raise (SBOMParserException "Unknown SBOM format in JSON").
Proof.
  unfold route_json. simpl.
  destruct (dict_get members "bomFormat") as [fmt|] eqn:Hfmt.
  - rewrite bool_decide_eq_true_2 by eauto. simpl.
    destruct (is_string "CycloneDX" fmt); reflexivity.
  - rewrite (bool_decide_eq_false_2 (is_Some None)) by (intros [? ?]; discriminate).
    reflexivity.
Qed.

Lemma parse_json_file `{StrLower} `{Decoders} content filename text data :
  endswith filename ".json" = true ->
  utf8_decode content = Some text ->
  json_loads text = Some data ->
  parse content filename =
  result_catch (route_json data)
    (fun e => Raise (SBOMParserException ("Failed to parse SBOM: " ++ exn_str e))).
Proof.
  intros Hext Hutf Hjson. unfold parse, _parse_json.
  rewrite Hext, Hutf, Hjson. reflexivity.
Qed.

Lemma parse_xml_file `{StrLower} `{Decoders} content filename text root :
  endswith filename ".json" = false ->
  endswith filename ".xml" = true ->
  utf8_decode content = Some text ->
  ET_fromstring text = Some root ->
  parse content filename =
  result_catch (route_xml root)
    (fun e => Raise (SBOMParserException ("Failed to parse SBOM: " ++ exn_str e))).
Proof.
  intros Hjson Hext Hutf Hxml. unfold parse, _parse_xml.
  rewrite Hjson, Hext, Hutf, Hxml. reflexivity.
Qed.

(** C7, as the code has it. The extension of the file name chooses
    between JSON and XML, the content chooses the extractor. A JSON
    object goes to the CycloneDX extractor exactly when its [bomFormat] is
    ["CycloneDX"], to the SPDX extractor exactly when it is not and the
    key [spdxVersion] is present, and is a parse error otherwise. An XML
    document goes to the CycloneDX extractor exactly when the lowercased
    tag of its root contains [cyclonedx], to the SPDX extractor exactly
    when it does not and contains [spdx], and is a parse error
    otherwise. *)
Theorem parse_routes_by_content `{StrLower} `{Decoders} (content filename text : string) :
  utf8_decode content = Some text ->
  (forall members,
     endswith filename ".json" = true ->
     json_loads text = Some (JObject members) ->
     let data := JObject members in
     let cyclonedx := dict_get members "bomFormat" = Some (JString "CycloneDX") in
     let spdx := is_Some (dict_get members "spdxVersion") in
     (parse content filename = Ok (CycloneDXParser_parse_json data) <-> cyclonedx) /\
     (parse content filename = Ok (SPDXParser_parse_json data) <->
      ~ cyclonedx /\ spdx) /\
     (~ cyclonedx -> ~ spdx ->
      exists msg, parse content filename = Raise (SBOMParserException msg))) /\
  (forall root,
     endswith filename ".json" = false ->
     endswith filename ".xml" = true ->
     ET_fromstring text = Some root ->
     let cyclonedx := str_in "cyclonedx" (str_lower (tag root)) = true in
     let spdx := str_in "spdx" (str_lower (tag root)) = true in
     (parse content filename = Ok (CycloneDXParser_parse_xml root) <-> cyclonedx) /\
     (parse content filename = Ok (SPDXParser_parse_xml root) <->
      ~ cyclonedx /\ spdx) /\
     (~ cyclonedx -> ~ spdx ->
      exists msg, parse content filename = Raise (SBOMParserException msg))).
Proof.
  intros Hutf. split.
  - intros members Hext Hjson data cyclonedx spdx.
    rewrite (parse_json_file content filename text data Hext Hutf Hjson).
    subst data. rewrite route_json_object.
    pose proof (is_string_option "CycloneDX" (dict_get members "bomFormat")) as Hiff.
    destruct (from_option (is_string "CycloneDX") false (dict_get members "bomFormat")).
    + assert (Hc : cyclonedx) by (apply Hiff; reflexivity). simpl.
      repeat split; try tauto; try discriminate.
    + assert (Hc : ~ cyclonedx) by (intros Hc; apply Hiff in Hc; discriminate).
      destruct (decide spdx) as [Hs|Hs].
      * rewrite bool_decide_eq_true_2 by exact Hs. simpl.
        repeat split; try tauto; try discriminate.
      * rewrite bool_decide_eq_false_2 by exact Hs. simpl.
        repeat split; try tauto; try discriminate. intros _ _. eauto.
  - intros root Hjson Hext Hxml cyclonedx spdx.
    rewrite (parse_xml_file content filename text root Hjson Hext Hutf Hxml).
    unfold route_xml. subst cyclonedx spdx.
    destruct (str_in "cyclonedx" (str_lower (tag root))); simpl;
      [|destruct (str_in "spdx" (str_lower (tag root))); simpl];
      intuition (try discriminate; try congruence; eauto).
Qed.

Lemma parse_routes_by_content_witness :
  let data := JObject [("bomFormat", JString "CycloneDX")] in
  @parse ascii_str_lower (decoders_of data (mkElement "bom" [] None []))
    "payload" "bom.json" = Ok (CycloneDXParser_parse_json data).
Proof.
  cbv zeta.
  apply (proj1 (proj1 (@parse_routes_by_content ascii_str_lower
                         (decoders_of (JObject [("bomFormat", JString "CycloneDX")])
                            (mkElement "bom" [] None []))
                         "payload" "bom.json" "payload" eq_refl)
                  [("bomFormat", JString "CycloneDX")] eq_refl eq_refl)).
  reflexivity.
Defined.

(** C7 as stated fails on a JSON object that has both keys: [spdxVersion]
    is present, yet the payload goes to the CycloneDX extractor, because
    [bomFormat] is looked at first. *)
Lemma parse_json_both_keys :
  let members := [("bomFormat", JString "CycloneDX");
                  ("spdxVersion", JString "SPDX-2.3")] in
  let data := JObject members in
  let routed :=
    @parse ascii_str_lower (decoders_of data (mkElement "bom" [] None []))
      "payload" "bom.json" in
  is_Some (dict_get members "spdxVersion") /\
  routed = Ok (CycloneDXParser_parse_json data) /\
  ~ (routed = Ok (SPDXParser_parse_json data) <->
     is_Some (dict_get members "spdxVersion")).
Proof.
  cbv zeta. split; [eexists; reflexivity|]. split; [reflexivity|].
  intros [_ Hback].
  assert (Hs : is_Some (dict_get [("bomFormat", JString "CycloneDX");
                                  ("spdxVersion", JString "SPDX-2.3")] "spdxVersion"))
    by (eexists; reflexivity).
  specialize (Hback Hs). vm_compute in Hback. discriminate Hback.
Qed.

End sbom_parser_facts.

(** ** The external scanner and the scan task (trivy_service.py,
    celery_worker.py) *)

Section worker_facts.
Import pystr pyjson models database trivy_service celery_worker.

Lemma scan_sbom_unexpected_exit `{ReportDecoder} process :
  returncode process <> 0%Z -> returncode process <> 1%Z ->
  trivy_service.scan_sbom (Completed process) =
  Failed ("Trivy scan failed: " ++ stderr process).
Proof.
  intros H0 H1. unfold trivy_service.scan_sbom.
  apply Z.eqb_neq in H0, H1. rewrite H0, H1. reflexivity.
Qed.

Lemma scan_sbom_expected_exit `{ReportDecoder} process :
  returncode process = 0%Z \/ returncode process = 1%Z ->
  trivy_service.scan_sbom (Completed process) =
  match loads_report (stdout process) with
  | Ok report => Success (_parse_trivy_result report)
  | Raise e => Failed ("Trivy scan error: " ++ exn_str e)
  end.
Proof.
  intros [Hc|Hc]; unfold trivy_service.scan_sbom; rewrite Hc; reflexivity.
Qed.

(** The row the task writes when the scan fails. *)
Lemma run_task_scan_failed `{StrLower} `{ReportDecoder} `{Library}
    t run duration sbom_id error :
  trivy_service.scan_sbom run = Failed error ->
  exists error',
    fst (run_task t run duration sbom_id) = Ok (TaskFailed error') /\
    scan_vulnerabilities (snd (run_task t run duration sbom_id)) =
      scan_vulnerabilities t /\
    (forall sbom_uuid sbom,
       UUID sbom_id = Some sbom_uuid ->
       find (fun s => String.eqb (models.sbom_id s) sbom_uuid) (sboms t) = Some sbom ->
       error' = error /\
       exists row,
         scan_results (snd (run_task t run duration sbom_id)) =
           scan_results t ++ [row] /\
         status row = "failed" /\
         models.total_components row = 0 /\ vulnerable_count row = 0).
Proof.
  intros Hscan.
  unfold run_task, celery_worker.scan_sbom, try_finally, try_except.
  destruct (UUID sbom_id) as [sbom_uuid|] eqn:Huuid.
  - unfold scan_and_save. unfold bind at 1. unfold query at 1.
    cbn [transaction SessionLocal].
    destruct (find (fun s => String.eqb (models.sbom_id s) sbom_uuid) (sboms t))
      as [sbom|] eqn:Hfind.
    + rewrite Hscan. cbn. rewrite Hfind. cbn.
      exists error. split; [reflexivity|]. split; [reflexivity|].
      intros sbom_uuid' sbom' Hu _. split; [reflexivity|].
      eexists. split; [reflexivity|]. repeat split.
    + cbn. rewrite Hfind. cbn.
      exists "SBOM not found". split; [reflexivity|]. split; [reflexivity|].
      intros sbom_uuid' sbom' Hu Hf. injection Hu as <-. congruence.
  - cbn. exists "Invalid SBOM ID format". split; [reflexivity|]. split; [reflexivity|].
    intros sbom_uuid' sbom' Hu. discriminate Hu.
Qed.

(** C8. Exit codes 0 and 1 both count as a completed scan, whose output
    is parsed into a result; any other exit code, and an output that
    cannot be read, give a failed result. When Trivy exits with code 2
    the task ends failed, with the tool's error when the SBOM was found,
    a failed scan row is recorded then, and no ScanVulnerability row is
    created. *)
Theorem scan_tool_exit_codes `{StrLower} `{ReportDecoder} `{Library}
    (process : CompletedProcess) :
  (returncode process = 0%Z \/ returncode process = 1%Z ->
   (forall report,
      loads_report (stdout process) = Ok report ->
      trivy_service.scan_sbom (Completed process) =
      Success (_parse_trivy_result report)) /\
   (forall e,
      loads_report (stdout process) = Raise e ->
      exists error, trivy_service.scan_sbom (Completed process) = Failed error)) /\
  (returncode process <> 0%Z -> returncode process <> 1%Z ->
   exists error, trivy_service.scan_sbom (Completed process) = Failed error) /\
  (returncode process = 2%Z ->
   forall t duration sbom_id,
   exists error,
     fst (run_task t (Completed process) duration sbom_id) = Ok (TaskFailed error) /\
     scan_vulnerabilities (snd (run_task t (Completed process) duration sbom_id)) =
       scan_vulnerabilities t /\
     (forall sbom_uuid sbom,
        UUID sbom_id = Some sbom_uuid ->
        find (fun s => String.eqb (models.sbom_id s) sbom_uuid) (sboms t) = Some sbom ->
        error = ("Trivy scan failed: " ++ stderr process)%string /\
        exists row,
          scan_results (snd (run_task t (Completed process) duration sbom_id)) =
            scan_results t ++ [row] /\
          status row = "failed" /\
          models.total_components row = 0 /\ vulnerable_count row = 0)).
Proof.
  split; [|split].
  - intros Hcode. rewrite (scan_sbom_expected_exit process Hcode). split.
    + intros report ->. reflexivity.
    + intros e ->. eauto.
  - intros H0' H1'. rewrite (scan_sbom_unexpected_exit process H0' H1'). eauto.
  - intros Hcode t duration sbom_id.
    apply run_task_scan_failed, scan_sbom_unexpected_exit; rewrite Hcode; discriminate.
Qed.

Lemma scan_tool_exit_codes_witness :
  returncode (examples.process 2) = 2%Z /\
  exists error,
    fst (@run_task ascii_str_lower
           (examples.decoder_of
              (examples.report (examples.finding "CVE-2021-45046" "log4j-api" None)))
           examples.library examples.store_1 (examples.exited 2) 3
           "9f1c2d3e-0000-4000-8000-000000000001") = Ok (TaskFailed error) /\
    error = "Trivy scan failed: fatal error".
Proof.
  split; [reflexivity|].
  destruct (proj2 (proj2 (@scan_tool_exit_codes ascii_str_lower
              (examples.decoder_of
                 (examples.report (examples.finding "CVE-2021-45046" "log4j-api" None)))
              examples.library (examples.process 2)))
              eq_refl examples.store_1 3%Z "9f1c2d3e-0000-4000-8000-000000000001")
    as (error & Hresult & _ & Hfound).
  exists error. split; [exact Hresult|].
  exact (proj1 (Hfound "9f1c2d3e-0000-4000-8000-000000000001" examples.sbom_1
                  eq_refl eq_refl)).
Defined.

(** *** Persistence *)

(** The rows [save_scan_result] adds, followed by its commit. *)
Lemma save_rows_then_commit {A} (x : A) (rows : list row) : forall s,
  match fold_right (fun r rest => bind (add r) (fun _ => rest))
          (bind commit (fun _ => ret x)) rows s with
  | (Ok y, s') => y = x /\ committed s' = transaction s' /\ pending s' = []
  | (Raise e, s') => committed s' = committed s
  end.
Proof.
  induction rows as [|r rows IH]; intros s; simpl.
  - unfold bind, commit, flush, ret.
    destruct (negb (active s)); [reflexivity|].
    destruct (insert_rows (transaction s) (pending s)); simpl; auto.
  - unfold bind at 1. unfold add at 1. specialize (IH
      {| committed := committed s; transaction := transaction s;
         pending := pending s ++ [r]; active := active s |}).
    exact IH.
Qed.

(** X7. The sibling of the task's persistence: [save_scan_result] either
    commits the ScanResult row and all its ScanVulnerability rows at once,
    or raises after a rollback that leaves the committed state as it
    was with nothing pending. *)
Lemma save_scan_result_atomic sbom_id res duration s :
  match scanner.save_scan_result sbom_id res duration s with
  | (Ok row, s') => committed s' = transaction s' /\ pending s' = []
  | (Raise e, s') =>
      committed s' = committed s /\ transaction s' = committed s /\ pending s' = []
  end.
Proof.
  unfold scanner.save_scan_result, try_except.
  match goal with
  | |- context [match ?body s with _ => _ end] =>
      assert (Hbody : match body s with
                      | (Ok y, s') => committed s' = transaction s' /\ pending s' = []
                      | (Raise e, s') => committed s' = committed s
                      end);
      [|destruct (body s) as [[row|e] s1]; [exact Hbody|];
        unfold bind, rollback, raise; simpl; rewrite Hbody; auto]
  end.
  unfold bind at 1. unfold query at 1.
  unfold bind at 1. unfold add at 1.
  unfold bind at 1.
  match goal with
  | |- context [flush ?s0] =>
      assert (Hflush : match flush s0 with (_, s') => committed s' = committed s end)
        by (unfold flush; simpl; destruct (negb (active s)); [reflexivity|];
            destruct (insert_rows _ _); reflexivity);
      destruct (flush s0) as [[[]|e] s2]; [|exact Hflush]
  end.
  match goal with
  | |- context [ret ?x] => set (built := x)
  end.
  set (row_of := fun (cv : sbom_parser.Component * Vulnerability) =>
    ScanVulnerabilityRow
      {| models.scan_result_id := sr_id built;
         models.vulnerability_id := v_id (snd cv);
         models.component_name := sbom_parser.name (fst cv);
         models.component_version := sbom_parser.version (fst cv);
         models.matched_cpe := scanner._extract_matched_cpe (fst cv) (snd cv) |}).
  match goal with
  | |- context [fold_right ?f ?final ?l] =>
      assert (Hflat : forall l', fold_right f final l' =
        fold_right (fun r rest => bind (add r) (fun _ => rest)) final
          (map row_of (flat_map (fun '(c, vs) => map (pair c) vs) l')))
  end.
  { induction l' as [|[c vs] l' IHl]; simpl; [reflexivity|].
    rewrite map_app, fold_right_app, <- IHl.
    induction vs as [|v vs IHv]; simpl; [reflexivity|]. rewrite IHv. reflexivity. }
  rewrite Hflat.
  match goal with
  | |- context [fold_right _ _ ?rows s2] =>
      pose proof (save_rows_then_commit built rows s2) as Hrows
  end.
  match type of Hrows with
  | match ?run with _ => _ end => destruct run as [[y|e] s3]
  end.
  - tauto.
  - congruence.
Qed.

(** When the database refuses a ScanVulnerability row of the task, the
    commit in the handler is refused too and the rollback leaves no row
    of the scan. *)
Lemma run_task_refused_row :
  @run_task ascii_str_lower
    (examples.decoder_of
       (examples.report
          (examples.finding "CVE-2021-45046" (examples.long_name 300) None)))
    examples.library examples.store_1 (examples.exited 1) 3
    "9f1c2d3e-0000-4000-8000-000000000001" =
  (Ok (TaskFailed "DataError"), examples.store_1).
Proof. vm_compute. reflexivity. Qed.

(** The sibling tally of the external scanner: a severity that is not a
    bucket name is counted under [UNKNOWN]. *)
Lemma trivy_count_severity_unrecognized counts severity k :
  counts !! severity = None ->
  trivy_service.count_severity counts severity !! k =
  if decide (k = "UNKNOWN") then Some (default 0 (counts !! "UNKNOWN") + 1)
  else counts !! k.
Proof.
  intros Hnone. unfold trivy_service.count_severity. rewrite Hnone.
  destruct (decide (k = "UNKNOWN")) as [->|Hne].
  - apply lookup_insert_eq.
  - apply lookup_insert_ne. congruence.
Qed.

(** C9, where the code departs from it. When the second of two findings
    carries a date that [datetime.fromisoformat] rejects, the task's
    handler commits without a rollback: the [completed] ScanResult row
    and the ScanVulnerability row of the first finding become visible,
    next to the [failed] row. *)
Theorem run_task_commits_partial_scan `{L : Library} :
  UUID "9f1c2d3e-0000-4000-8000-000000000001" =
    Some "9f1c2d3e-0000-4000-8000-000000000001" ->
  fromisoformat "unknown" = None ->
  let second := examples.finding "CVE-2021-45046" "log4j-api" (Some "unknown") in
  let outcome :=
    @run_task ascii_str_lower (examples.decoder_of (examples.report second)) _
      examples.store_1 (examples.exited 1) 3
      "9f1c2d3e-0000-4000-8000-000000000001" in
  total_vulnerabilities (_parse_trivy_result (examples.report second)) = 2 /\
  fst outcome = Ok (TaskFailed "ValueError") /\
  map status (scan_results (snd outcome)) = ["completed"; "failed"] /\
  map (fun sv => (scan_result_id sv, models.component_name sv))
    (scan_vulnerabilities (snd outcome)) = [(1, "log4j-core")] /\
  map models.cve_id (database.vulnerabilities (snd outcome)) = ["CVE-2021-44228"].
Proof.
  intros Huuid Hdate. cbv zeta.
  split; [vm_compute; reflexivity|].
  destruct L as [uuid fiso]. cbn in Huuid, Hdate.
  vm_compute. rewrite Huuid.
  vm_compute. rewrite Hdate.
  vm_compute. repeat split; reflexivity.
Qed.

Lemma run_task_commits_partial_scan_witness :
  @fromisoformat examples.library "unknown" = None /\
  fst (@run_task ascii_str_lower
         (examples.decoder_of
            (examples.report
               (examples.finding "CVE-2021-45046" "log4j-api" (Some "unknown"))))
         examples.library examples.store_1 (examples.exited 1) 3
         "9f1c2d3e-0000-4000-8000-000000000001") = Ok (TaskFailed "ValueError").
Proof.
  split; [reflexivity|].
  exact (proj1 (proj2 (@run_task_commits_partial_scan examples.library
                         eq_refl eq_refl))).
Defined.

End worker_facts.

(** * Further properties of the code *)

(** ** Name normalization and version ranges (scanner.py) *)

Section normalization_facts.
Import pystr spec sbom_parser models database scanner.

Lemma re_sub_non_az09_fixes s :
  Forall name_char (chars s) -> re_sub_non_az09 s = s.
Proof.
  induction s as [|c s IH]; intros Hs; simpl; [reflexivity|].
  inversion Hs as [|? ? Hc Hs']; subst. rewrite (IH Hs').
  destruct Hc as [Hc | ->]; [rewrite Hc | ]; reflexivity.
Qed.

Lemma collapse_underscores_fixes s : forall prev,
  has_double_underscore s = false ->
  (prev = true -> starts_with_underscore s = false) ->
  collapse_underscores prev s = s.
Proof.
  induction s as [|c s IH]; intros prev Hd Hp; simpl; [reflexivity|].
  pose proof (has_double_tail c s Hd) as Ht.
  destruct (Ascii.eqb_spec c underscore) as [->|Hne].
  - destruct prev; [specialize (Hp eq_refl); discriminate Hp|].
    rewrite IH; [reflexivity | exact Ht |]. intros _.
    destruct s as [|b r]; [reflexivity|].
    simpl in Hd. apply orb_false_iff in Hd. destruct Hd as [Hd _].
    simpl. exact Hd.
  - rewrite IH; [reflexivity | exact Ht | discriminate].
Qed.

Lemma lstrip_underscore_fixes s :
  starts_with_underscore s = false -> lstrip_underscore s = s.
Proof.
  destruct s as [|c s]; [reflexivity|]. simpl. intros ->. reflexivity.
Qed.

Lemma rstrip_underscore_idempotent s :
  rstrip_underscore (rstrip_underscore s) = rstrip_underscore s.
Proof.
  induction s as [|c s IH]; [reflexivity|]. simpl.
  destruct (rstrip_underscore s) as [|d r] eqn:E.
  - destruct (Ascii.eqb c underscore) eqn:Ec; [reflexivity|].
    simpl. rewrite Ec. reflexivity.
  - change (rstrip_underscore (String c (String d r)))
      with (match rstrip_underscore (String d r) with
            | EmptyString =>
                if Ascii.eqb c underscore then EmptyString else String c EmptyString
            | r' => String c r'
            end).
    rewrite IH. reflexivity.
Qed.

Lemma ascii_lower_fixes s :
  Forall name_char (chars s) -> ascii_lower s = s.
Proof.
  induction s as [|c s IH]; intros Hs; simpl; [reflexivity|].
  inversion Hs as [|? ? Hc Hs']; subst. rewrite (IH Hs'). f_equal.
  unfold ascii_lower_char.
  assert (Hup : is_upper_az c = false); [|rewrite Hup; reflexivity].
  unfold is_upper_az. destruct Hc as [Hc | ->]; [|reflexivity].
  unfold is_az09, is_lower_az, is_digit in Hc.
  apply andb_false_iff.
  apply orb_true_iff in Hc.
  destruct Hc as [Hc|Hc]; apply andb_true_iff in Hc; destruct Hc as [Hlo Hhi];
    apply Nat.leb_le in Hlo, Hhi.
  - right. apply Nat.leb_gt. lia.
  - left. apply Nat.leb_gt. lia.
Qed.

(** X1. Normalizing a normalized name changes nothing, provided that
    [str.lower] leaves a string of [a-z0-9_] as it is. *)
Theorem normalize_component_name_idempotent `{StrLower} (name : string) :
  (forall s, Forall name_char (chars s) -> str_lower s = s) ->
  _normalize_component_name (_normalize_component_name name) =
  _normalize_component_name name.
Proof.
  intros Hlower.
  unfold _normalize_component_name, re_sub_underscores, strip_underscore.
  set (collapsed := collapse_underscores false (re_sub_non_az09 (str_lower name))).
  set (normalized := rstrip_underscore (lstrip_underscore collapsed)).
  assert (Hchars : Forall name_char (chars normalized)).
  { apply rstrip_underscore_chars, lstrip_underscore_chars,
      collapse_underscores_chars, re_sub_non_az09_chars. }
  assert (Hdouble : has_double_underscore normalized = false).
  { apply rstrip_no_double, lstrip_no_double.
    apply (collapse_underscores_no_double _ false). }
  assert (Hlead : starts_with_underscore normalized = false).
  { apply rstrip_no_leading, lstrip_no_leading. }
  rewrite (Hlower normalized Hchars), (re_sub_non_az09_fixes normalized Hchars).
  rewrite (collapse_underscores_fixes normalized false Hdouble) by discriminate.
  rewrite (lstrip_underscore_fixes normalized Hlead).
  apply rstrip_underscore_idempotent.
Qed.

Lemma normalize_component_name_idempotent_witness :
  @_normalize_component_name ascii_str_lower
    (@_normalize_component_name ascii_str_lower "Log4j-Core") =
  @_normalize_component_name ascii_str_lower "Log4j-Core".
Proof.
  apply (@normalize_component_name_idempotent ascii_str_lower "Log4j-Core").
  exact ascii_lower_fixes.
Defined.

Lemma bound_rejects_some `{PkgVersion} bound (out_of_range : Version -> bool) r :
  bound_rejects bound out_of_range = Some r -> parseable bound.
Proof.
  unfold bound_rejects, parseable. intros Hr s Hs. rewrite Hs in Hr.
  destruct (pkg_version_parse s) as [b|]; [eauto | discriminate Hr].
Qed.

(** X2. When a present bound does not parse, the check can only answer true
    through the fallback: the version string is then equal to
    [startIncl]. *)
Theorem check_version_range_unparseable_bound `{PkgVersion}
    (v : string) (startIncl startExcl endIncl endExcl : option string) :
  (exists bound s,
     In bound [startIncl; startExcl; endIncl; endExcl] /\
     truthy bound = Some s /\ pkg_version_parse s = None) ->
  _check_version_range v startIncl startExcl endIncl endExcl = true ->
  truthy startIncl = Some v.
Proof.
  intros (bound & s & Hin & Hs & Hparse).
  assert (Hfallback :
    match truthy startIncl with
    | Some s' => String.eqb v s'
    | None => false
    end = true -> truthy startIncl = Some v).
  { destruct (truthy startIncl) as [s'|]; [|discriminate].
    intros Heq. apply String.eqb_eq in Heq. congruence. }
  assert (Hbad : ~ parseable bound).
  { intros Hp. destruct (Hp s Hs) as [b Hb]. congruence. }
  unfold _check_version_range, _check_version_range_try.
  destruct (pkg_version_parse v) as [cv|]; simpl; [|exact Hfallback].
  destruct (bound_rejects startIncl _) as [[|]|] eqn:E1; simpl;
    [discriminate | | exact Hfallback].
  destruct (bound_rejects startExcl _) as [[|]|] eqn:E2; simpl;
    [discriminate | | exact Hfallback].
  destruct (bound_rejects endIncl _) as [[|]|] eqn:E3; simpl;
    [discriminate | | exact Hfallback].
  destruct (bound_rejects endExcl _) as [[|]|] eqn:E4; simpl;
    [discriminate | | exact Hfallback].
  exfalso. apply Hbad.
  destruct Hin as [<-|[<-|[<-|[<-|[]]]]];
    eauto using bound_rejects_some.
Qed.

Lemma check_version_range_unparseable_bound_witness :
  @_check_version_range release_version "1.0" (Some "1.0") None None (Some "latest") = true /\
  truthy (Some "1.0") = Some "1.0".
Proof.
  split; [reflexivity|].
  apply (@check_version_range_unparseable_bound release_version
           "1.0" (Some "1.0") None None (Some "latest")).
  - exists (Some "latest"), "latest". split; [simpl; tauto|]. split; reflexivity.
  - reflexivity.
Defined.

End normalization_facts.

(** ** The scan loop and its tallies (scanner.py) *)

Section scan_result_facts.
Import pystr spec derived sbom_parser models database scanner.

Section loop.
Context `{StrLower} `{PkgVersion}.
Variable session : Session.

Lemma scan_loop_structure components : forall res,
  let res' := fold_left (scan_component session) components res in
  vulnerable_components res' =
    vulnerable_components res ++
    map (fun c => (c, _find_vulnerabilities_for_component session c))
      (vulnerable session components) /\
  vulnerabilities_found res' =
    vulnerabilities_found res ++
    flat_map (_find_vulnerabilities_for_component session) components /\
  severity_counts res' =
    fold_left count_severity
      (flat_map (_find_vulnerabilities_for_component session) components)
      (severity_counts res).
Proof.
  induction components as [|c cs IH]; intros res; cbv zeta.
  - simpl. rewrite !app_nil_r. repeat split.
  - change (fold_left (scan_component session) (c :: cs) res)
      with (fold_left (scan_component session) cs (scan_component session res c)).
    destruct (IH (scan_component session res c)) as (Hvc & Hfound & Hcounts).
    rewrite Hvc, Hfound, Hcounts. clear IH Hvc Hfound Hcounts.
    rewrite vulnerable_cons. simpl flat_map. rewrite fold_left_app.
    unfold scan_component.
    destruct (_find_vulnerabilities_for_component session c) as [|v vs] eqn:Hfind.
    + simpl. repeat split.
    + cbn [severity_counts vulnerable_components vulnerabilities_found].
      rewrite <- !app_assoc. simpl. rewrite Hfind. repeat split.
Qed.

End loop.

Lemma count_severity_default counts vuln k :
  default 0 (count_severity counts vuln !! k) =
  default 0 (counts !! k) + (if decide (effective_severity vuln = k) then 1 else 0).
Proof.
  rewrite count_severity_lookup. fold (effective_severity vuln).
  destruct (decide (k = effective_severity vuln)) as [->|Hne].
  - rewrite decide_True by reflexivity. simpl. reflexivity.
  - rewrite decide_False by congruence. lia.
Qed.

Lemma fold_count_severity_default vulns : forall counts k,
  default 0 (fold_left count_severity vulns counts !! k) =
  default 0 (counts !! k) + count_with_severity k vulns.
Proof.
  unfold count_with_severity.
  induction vulns as [|v vulns IH]; intros counts k; simpl; [lia|].
  rewrite IH, count_severity_default, filter_cons.
  destruct (decide (effective_severity v = k)); simpl; lia.
Qed.

Lemma fold_count_severity_keeps vulns : forall counts k,
  is_Some (counts !! k) -> is_Some (fold_left count_severity vulns counts !! k).
Proof.
  induction vulns as [|v vulns IH]; intros counts k Hk; simpl; [exact Hk|].
  apply IH. rewrite count_severity_lookup. destruct (decide _); eauto.
Qed.

Lemma fold_count_severity_none vulns : forall counts k,
  counts !! k = None -> count_with_severity k vulns = 0 ->
  fold_left count_severity vulns counts !! k = None.
Proof.
  unfold count_with_severity.
  induction vulns as [|v vulns IH]; intros counts k Hk Hc; simpl; [exact Hk|].
  rewrite filter_cons in Hc.
  destruct (decide (effective_severity v = k)) as [He|He]; [discriminate Hc|].
  apply IH; [|exact Hc].
  rewrite count_severity_lookup. fold (effective_severity v).
  rewrite decide_False by congruence. exact Hk.
Qed.

Lemma initial_severity_counts_lookup k :
  scanner.initial_severity_counts !! k =
  if bool_decide (k ∈ buckets) then Some 0 else None.
Proof.
  unfold scanner.initial_severity_counts, buckets.
  repeat (rewrite lookup_insert; destruct (decide _) as [<-|?]; [reflexivity|]).
  rewrite lookup_empty. rewrite bool_decide_eq_false_2; [reflexivity|].
  rewrite !elem_of_cons, elem_of_nil. intuition congruence.
Qed.

(** X4. The lists a scan returns are the matches themselves: one entry per
    component that has a match, in the order of the components, with the
    vulnerabilities the store lookup gave for it; the vulnerabilities found
    are those lists one after the other. *)
Theorem scan_components_structure `{StrLower} `{PkgVersion}
    (session : Session) (components : list Component) :
  let res := scan_components session components in
  vulnerable_components res =
    map (fun c => (c, _find_vulnerabilities_for_component session c))
      (vulnerable session components) /\
  vulnerabilities_found res =
    flat_map (_find_vulnerabilities_for_component session) components /\
  result_pairs res = match_pairs session components /\
  Forall (fun '(c, vs) => vs <> []) (vulnerable_components res).
Proof.
  cbv zeta. unfold scan_components.
  match goal with
  | |- context [fold_left _ _ ?init] =>
      destruct (scan_loop_structure session components init) as (Hvc & Hfound & _)
  end.
  cbn [vulnerable_components vulnerabilities_found] in Hvc, Hfound.
  simpl in Hvc, Hfound. unfold result_pairs. rewrite Hvc, Hfound.
  split; [reflexivity|]. split; [reflexivity|]. split.
  - clear Hvc Hfound. unfold match_pairs, vulnerable.
    induction components as [|c cs IH]; [reflexivity|].
    rewrite filter_cons. simpl flat_map.
    destruct (decide (_find_vulnerabilities_for_component session c <> [])) as [Hne|He].
    + simpl. rewrite IH. reflexivity.
    + apply dec_stable in He. rewrite He. simpl. exact IH.
  - apply Forall_map. unfold vulnerable.
    apply Forall_forall. intros c Hc.
    apply list_elem_of_filter in Hc. apply Hc.
Qed.

(** X5. Each bucket of a scan holds the number of matches whose severity
    names it, [UNKNOWN] standing for an absent or empty severity; the
    five buckets are always there, a severity of another name has a
    bucket of its own. *)
Theorem scan_components_bucket_counts `{StrLower} `{PkgVersion}
    (session : Session) (components : list Component) (k : string) :
  let res := scan_components session components in
  default 0 (severity_counts res !! k) =
    count_with_severity k (vulnerabilities_found res) /\
  (is_Some (severity_counts res !! k) <->
   k ∈ buckets \/ 0 < count_with_severity k (vulnerabilities_found res)).
Proof.
  cbv zeta. unfold scan_components.
  match goal with
  | |- context [fold_left _ _ ?init] =>
      destruct (scan_loop_structure session components init) as (_ & Hfound & Hcounts)
  end.
  cbn [severity_counts vulnerabilities_found] in Hfound, Hcounts.
  simpl in Hfound. rewrite Hfound, Hcounts.
  set (found := flat_map (_find_vulnerabilities_for_component session) components).
  pose proof (fold_count_severity_default found scanner.initial_severity_counts k) as Hd.
  pose proof (initial_severity_counts_lookup k) as Hinit.
  assert (Hzero : default 0 (scanner.initial_severity_counts !! k) = 0).
  { rewrite Hinit. destruct (bool_decide _); reflexivity. }
  rewrite Hzero in Hd. simpl in Hd. split; [exact Hd|]. split.
  - intros Hsome. destruct (bool_decide (k ∈ buckets)) eqn:Hb.
    + left. apply bool_decide_eq_true in Hb. exact Hb.
    + right. destruct (count_with_severity k found) as [|m] eqn:Hc; [|lia].
      exfalso. rewrite (fold_count_severity_none found _ k Hinit Hc) in Hsome.
      destruct Hsome as [? Hsome]. discriminate Hsome.
  - intros [Hb|Hpos].
    + apply fold_count_severity_keeps. rewrite Hinit.
      rewrite bool_decide_eq_true_2 by exact Hb. eauto.
    + destruct (fold_left count_severity found _ !! k) as [n|]; [eauto|].
      simpl in Hd. lia.
Qed.

End scan_result_facts.

(** ** Saving a scan (scanner.py) *)

Section save_facts.
Import pystr spec derived sbom_parser models database scanner.

Lemma adds_run {A} (final : db A) (rows : list row) : forall s,
  fold_right (fun r rest => bind (add r) (fun _ => rest)) final rows s =
  final {| committed := committed s; transaction := transaction s;
           pending := pending s ++ rows; active := active s |}.
Proof.
  induction rows as [|r rows IH]; intros s; simpl.
  - rewrite app_nil_r. destruct s; reflexivity.
  - unfold bind at 1. unfold add at 1. rewrite IH. simpl.
    rewrite <- app_assoc. reflexivity.
Qed.

Lemma insert_rows_tables rows : forall t t',
  insert_rows t rows = Ok t' ->
  sboms t' = sboms t /\
  vulnerabilities t' = vulnerabilities t ++ omap row_vulnerability rows /\
  scan_results t' = scan_results t ++ omap row_scan_result rows /\
  scan_vulnerabilities t' =
    scan_vulnerabilities t ++ omap row_scan_vulnerability rows.
Proof.
  induction rows as [|r rows IH]; intros t t' Hrun; simpl in Hrun.
  - injection Hrun as <-. simpl. rewrite !app_nil_r. repeat split.
  - destruct (insert_row t r) as [t1|e] eqn:Hrow; [|discriminate Hrun].
    destruct (IH t1 t' Hrun) as (Hs & Hv & Hsr & Hsv).
    rewrite Hs, Hv, Hsr, Hsv. clear IH Hrun Hs Hv Hsr Hsv.
    unfold insert_row in Hrow.
    destruct r as [v|sr|sv]; simpl;
      repeat match type of Hrow with
             | (if ?c then _ else _) = _ => destruct c; [discriminate Hrow|]
             end;
      injection Hrow as <-; simpl; rewrite <- ?app_assoc; repeat split.
Qed.

Lemma next_id_fresh {A} (key : A -> nat) (rows : list A) :
  next_id key rows ∉ map key rows.
Proof.
  unfold next_id. intros Hin. apply list_elem_of_In in Hin.
  assert (Hle : Forall (fun k => k <= list_max (map key rows)) (map key rows))
    by (apply list_max_le; lia).
  rewrite Forall_forall in Hle. apply list_elem_of_In in Hin.
  specialize (Hle _ Hin). lia.
Qed.

(** The run of [save_scan_result] on a session: the row it builds, the
    rows it adds. *)
Lemma save_scan_result_run sbom_id res duration s :
  let built := completed_row sbom_id res duration (transaction s) in
  save_scan_result sbom_id res duration s =
  try_except
    (bind (add (ScanResultRow built)) (fun _ =>
       bind flush (fun _ =>
         fold_right (fun r rest => bind (add r) (fun _ => rest))
           (bind commit (fun _ => ret built))
           (map (fun cv => ScanVulnerabilityRow (link built cv)) (result_pairs res)))))
    (fun e => bind rollback (fun _ => raise e)) s.
Proof.
  cbv zeta. unfold save_scan_result, try_except.
  unfold bind at 1. unfold query at 1.
  fold (completed_row sbom_id res duration (transaction s)).
  set (built := completed_row sbom_id res duration (transaction s)).
  match goal with
  | |- context [fold_right ?f ?final (vulnerable_components res)] =>
      assert (Hflat : forall l, fold_right f final l =
        fold_right (fun r rest => bind (add r) (fun _ => rest)) final
          (map (fun cv => ScanVulnerabilityRow (link built cv))
             (flat_map (fun '(c, vs) => map (pair c) vs) l)))
  end.
  { induction l as [|[c vs] l IHl]; simpl; [reflexivity|].
    rewrite map_app, fold_right_app, <- IHl.
    induction vs as [|v vs IHv]; simpl; [reflexivity|]. rewrite IHv. reflexivity. }
  rewrite Hflat. reflexivity.
Qed.

(** X6. On a session that is active and has nothing pending, a save that
    returns has committed the scan as a whole: the row it returns, with a
    fresh key, after the scan results there were, and one association row
    per match, in order, after the associations there were. The
    vulnerabilities and the SBOMs are as they were. *)
Theorem save_scan_result_commits sbom_id res duration s row s' :
  active s = true -> pending s = [] ->
  save_scan_result sbom_id res duration s = (Ok row, s') ->
  row = completed_row sbom_id res duration (transaction s) /\
  (sr_id row ∉ map sr_id (scan_results (transaction s))) /\
  committed s' = transaction s' /\ pending s' = [] /\
  scan_results (committed s') = scan_results (transaction s) ++ [row] /\
  scan_vulnerabilities (committed s') =
    scan_vulnerabilities (transaction s) ++ map (link row) (result_pairs res) /\
  vulnerabilities (committed s') = vulnerabilities (transaction s) /\
  sboms (committed s') = sboms (transaction s).
Proof.
  intros Hactive Hpending. rewrite save_scan_result_run. cbv zeta.
  set (built := completed_row sbom_id res duration (transaction s)).
  unfold try_except. unfold bind at 1. unfold add at 1.
  unfold bind at 1. unfold flush at 1. cbn [active pending transaction committed].
  rewrite Hactive, Hpending. simpl negb. cbv iota. simpl insert_rows.
  change (fits 50 (status built)) with true. cbv iota. simpl negb. cbv iota.
  rewrite adds_run. cbn [active pending transaction committed].
  unfold bind at 1. unfold commit at 1. unfold flush at 1.
  cbn [active pending transaction committed]. simpl negb. cbv iota. simpl app.
  destruct (insert_rows _ _) as [t2|e] eqn:Hrows.
  - unfold ret. cbn. intros Heq. injection Heq as <- <-.
    apply insert_rows_tables in Hrows. cbn in Hrows.
    destruct Hrows as (Hs & Hv & Hsr & Hsv).
    cbn [committed transaction pending].
    split; [reflexivity|]. split; [apply next_id_fresh|].
    split; [reflexivity|]. split; [reflexivity|].
    rewrite Hs, Hv, Hsr, Hsv.
    assert (Hnone1 : forall l, omap row_vulnerability
              (map (fun cv => ScanVulnerabilityRow (link built cv)) l) = [])
      by (induction l; simpl; auto).
    assert (Hnone2 : forall l, omap row_scan_result
              (map (fun cv => ScanVulnerabilityRow (link built cv)) l) = [])
      by (induction l; simpl; auto).
    assert (Hall : forall l, omap row_scan_vulnerability
              (map (fun cv => ScanVulnerabilityRow (link built cv)) l) =
              map (link built) l)
      by (induction l as [|x l IHl]; simpl; [reflexivity | f_equal; exact IHl]).
    rewrite Hnone1, Hnone2, Hall, !app_nil_r. repeat split.
  - cbn. discriminate.
Qed.

Lemma save_scan_result_commits_witness :
  match save_scan_result "sbom-1"
          (@scan_components ascii_str_lower release_version
             (SessionLocal (examples.store (Some "HIGH"))) [examples.log4j_core])
          3 (SessionLocal (examples.store (Some "HIGH"))) with
  | (Ok row, s') =>
      map component_name (scan_vulnerabilities (committed s')) = ["log4j-core"] /\
      scan_results (committed s') = [row]
  | (Raise _, _) => False
  end.
Proof.
  destruct (save_scan_result "sbom-1"
              (@scan_components ascii_str_lower release_version
                 (SessionLocal (examples.store (Some "HIGH"))) [examples.log4j_core])
              3 (SessionLocal (examples.store (Some "HIGH"))))
    as [[row|e] s'] eqn:Hsave.
  - destruct (save_scan_result_commits _ _ _
                (SessionLocal (examples.store (Some "HIGH"))) row s'
                eq_refl eq_refl Hsave)
      as (_ & _ & _ & _ & Hsr & Hsv & _).
    rewrite Hsr, Hsv. split; [vm_compute|]; reflexivity.
  - vm_compute in Hsave. discriminate Hsave.
Defined.

Lemma severity_counts_disjoint (vulns : list Vulnerability) :
  count_with_severity "CRITICAL" vulns + count_with_severity "HIGH" vulns +
  count_with_severity "MEDIUM" vulns + count_with_severity "LOW" vulns +
  count_with_severity "UNKNOWN" vulns <= length vulns.
Proof.
  unfold count_with_severity.
  induction vulns as [|v vulns IH]; simpl; [lia|].
  rewrite !filter_cons.
  repeat match goal with
         | |- context [decide (effective_severity v = ?k)] =>
             destruct (decide (effective_severity v = k)) as [?E|?E]
         end; simpl; try lia; congruence.
Qed.

Lemma scan_components_count_default `{StrLower} `{PkgVersion} session components k :
  let res := scan_components session components in
  default 0 (severity_counts res !! k) =
  count_with_severity k (vulnerabilities_found res).
Proof.
  cbv zeta. unfold scan_components.
  match goal with
  | |- context [fold_left _ _ ?init] =>
      destruct (scan_loop_structure session components init) as (_ & Hfound & Hcounts)
  end.
  cbn [severity_counts vulnerabilities_found] in Hfound, Hcounts.
  simpl in Hfound. rewrite Hfound, Hcounts, fold_count_severity_default.
  rewrite initial_severity_counts_lookup. destruct (bool_decide _); reflexivity.
Qed.

(** X8. The four counts of the saved row are the numbers of matches of
    severity CRITICAL, HIGH, MEDIUM and LOW. A match of another severity
    is in none of them, so the four add up to at most the number of
    matches, and to less by the number counted under [UNKNOWN]. *)
Theorem saved_counts_are_matches `{StrLower} `{PkgVersion}
    (session : Session) (components : list Component)
    sbom_id duration s row s' :
  let res := scan_components session components in
  save_scan_result sbom_id res duration s = (Ok row, s') ->
  critical_count row = count_with_severity "CRITICAL" (vulnerabilities_found res) /\
  high_count row = count_with_severity "HIGH" (vulnerabilities_found res) /\
  medium_count row = count_with_severity "MEDIUM" (vulnerabilities_found res) /\
  low_count row = count_with_severity "LOW" (vulnerabilities_found res) /\
  critical_count row + high_count row + medium_count row + low_count row +
    count_with_severity "UNKNOWN" (vulnerabilities_found res)
  <= length (match_pairs session components).
Proof.
  cbv zeta. intros Hsave.
  assert (Hrow : row = completed_row sbom_id
                   (scan_components session components) duration (transaction s)).
  { rewrite save_scan_result_run in Hsave. cbv zeta in Hsave.
    unfold try_except in Hsave.
    match type of Hsave with
    | match ?body s with _ => _ end = _ =>
        assert (Hbody : forall y s1, body s = (Ok y, s1) ->
                  y = completed_row sbom_id (scan_components session components)
                        duration (transaction s));
        [|destruct (body s) as [[y|e] s1];
          [injection Hsave as <- _; eapply Hbody; reflexivity
          |unfold bind, rollback, raise in Hsave; discriminate Hsave]]
    end.
    intros y s1. unfold bind at 1. unfold add at 1.
    unfold bind at 1. destruct (flush _) as [[[]|e] s2]; [|discriminate].
    rewrite adds_run. unfold bind. destruct (commit _) as [[[]|e] s3]; [|discriminate].
    unfold ret. congruence. }
  subst row. unfold completed_row.
  cbn [critical_count high_count medium_count low_count].
  rewrite !scan_components_count_default.
  pose proof (severity_counts_disjoint
                (vulnerabilities_found (scan_components session components))) as Hsum.
  pose proof (scan_loop_invariant session components
                {| scanner.total_components := length components;
                   vulnerable_components := [];
                   vulnerabilities_found := [];
                   severity_counts := scanner.initial_severity_counts |})
    as (_ & _ & Hlen & _).
  fold (scan_components session components) in Hlen. simpl in Hlen.
  repeat split; lia.
Qed.

Lemma saved_counts_are_matches_witness :
  match save_scan_result "sbom-1"
          (@scan_components ascii_str_lower release_version
             (SessionLocal (examples.store (Some "HIGH"))) [examples.log4j_core])
          3 (SessionLocal (examples.store (Some "HIGH"))) with
  | (Ok row, _) => high_count row = 1 /\ critical_count row = 0
  | (Raise _, _) => False
  end.
Proof.
  destruct (save_scan_result "sbom-1"
              (@scan_components ascii_str_lower release_version
                 (SessionLocal (examples.store (Some "HIGH"))) [examples.log4j_core])
              3 (SessionLocal (examples.store (Some "HIGH"))))
    as [[row|e] s'] eqn:Hsave.
  - destruct (@saved_counts_are_matches ascii_str_lower release_version
                (SessionLocal (examples.store (Some "HIGH"))) [examples.log4j_core]
                "sbom-1" 3%Z _ row s' Hsave) as (Hc & Hh & _).
    rewrite Hc, Hh. split; vm_compute; reflexivity.
  - vm_compute in Hsave. discriminate Hsave.
Defined.

Lemma head_omap_first {A B} (f : A -> option B) (l : list A) :
  match head (omap f l) with
  | Some b => exists before a after,
      l = before ++ a :: after /\ f a = Some b /\ Forall (fun a' => f a' = None) before
  | None => Forall (fun a' => f a' = None) l
  end.
Proof.
  induction l as [|a l IH]; [constructor|].
  change (omap f (a :: l))
    with (match f a with Some b => b :: omap f l | None => omap f l end).
  destruct (f a) as [b|] eqn:Hfa; simpl.
  - exists [], a, l. repeat split; [exact Hfa | constructor].
  - destruct (head (omap f l)) as [b|].
    + destruct IH as (before & a' & after & -> & Hfa' & Hbefore).
      exists (a :: before), a', after. repeat split; [exact Hfa'|].
      constructor; assumption.
    + constructor; assumption.
Qed.

(** X9. The CPE stored with a match is the first non-empty [criteria] of the
    vulnerability, whichever criterion made the component match; it is
    absent exactly when no criterion has one. *)
Theorem extract_matched_cpe_first (component : Component) (vulnerability : Vulnerability) :
  match _extract_matched_cpe component vulnerability with
  | Some cpe =>
      cpe <> "" /\
      exists before m after,
        cpe_match vulnerability = Some (before ++ m :: after) /\
        criteria m = Some cpe /\ Forall no_criteria before
  | None =>
      forall ms, cpe_match vulnerability = Some ms -> Forall no_criteria ms
  end.
Proof.
  unfold _extract_matched_cpe.
  set (f := fun m : CpeMatch => truthy (Some (default "" (criteria m)))).
  assert (Hnone : forall m, f m = None -> no_criteria m).
  { intros m. unfold f, no_criteria.
    destruct (criteria m) as [[|c r]|]; simpl; auto; discriminate. }
  assert (Hsome : forall m cpe, f m = Some cpe -> cpe <> "" /\ criteria m = Some cpe).
  { intros m cpe. unfold f. destruct (criteria m) as [[|c r]|]; simpl; try discriminate.
    intros Heq. injection Heq as <-. split; [discriminate | reflexivity]. }
  destruct (cpe_match vulnerability) as [ms|]; [|discriminate].
  assert (Hmain :
    match head (omap f ms) with
    | Some cpe =>
        cpe <> "" /\
        exists before m after,
          Some ms = Some (before ++ m :: after) /\
          criteria m = Some cpe /\ Forall no_criteria before
    | None => forall ms', Some ms = Some ms' -> Forall no_criteria ms'
    end).
  { pose proof (head_omap_first f ms) as Hhead.
    destruct (head (omap f ms)) as [cpe|].
    - destruct Hhead as (before & m & after & -> & Hfm & Hbefore).
      destruct (Hsome m cpe Hfm) as [Hne Hc]. split; [exact Hne|].
      exists before, m, after. repeat split; [exact Hc|].
      eapply Forall_impl; [exact Hbefore | exact Hnone].
    - intros ms' Heq. injection Heq as <-.
      eapply Forall_impl; [exact Hhead | exact Hnone]. }
  destruct ms as [|m0 ms0]; [|exact Hmain].
  intros ms' Heq. injection Heq as <-. constructor.
Qed.

End save_facts.

(** ** The report of the external scanner (trivy_service.py) *)

Section trivy_facts.
Import pystr spec derived trivy_service.
Local Set Warnings "-clear-no-such-hyp".

Lemma parse_target_after st result :
  after_findings st (default [] (Vulnerabilities result)) (parse_target st result).
Proof.
  unfold parse_target.
  generalize (default "unknown" (Target result)) as target.
  generalize (default [] (Vulnerabilities result)) as fs.
  intros fs target. revert st.
  induction fs as [|f fs IH]; intros st; unfold after_findings; simpl.
  - repeat split; [lia | set_solver].
  - destruct (IH (parse_finding target st f)) as (Hlen & Hcounts & Hset).
    rewrite Hlen, Hcounts, Hset. unfold parse_finding. simpl.
    rewrite length_app. simpl. repeat split; [lia|].
    unfold component_key. set_solver.
Qed.

Lemma parse_targets_after results : forall st,
  after_findings st
    (flat_map (fun t => default [] (Vulnerabilities t)) results)
    (fold_left parse_target results st).
Proof.
  induction results as [|r results IH]; intros st; simpl.
  - unfold after_findings. simpl. repeat split; [lia | set_solver].
  - destruct (IH (parse_target st r)) as (Hlen & Hcounts & Hset).
    destruct (parse_target_after st r) as (Hlen1 & Hcounts1 & Hset1).
    unfold after_findings.
    rewrite Hlen, Hcounts, Hset, Hlen1, Hcounts1, Hset1.
    rewrite length_app, map_app, fold_left_app.
    repeat split; [lia|]. set_solver.
Qed.

Lemma trivy_count_severity_sum counts severity :
  sum_counts (count_severity counts severity) = sum_counts counts + 1.
Proof.
  unfold count_severity. destruct (counts !! severity) as [n|] eqn:Hn.
  - pose proof (sum_counts_insert counts severity (n + 1)) as Hs.
    rewrite Hn in Hs. simpl in Hs. lia.
  - pose proof (sum_counts_insert counts "UNKNOWN"
                  (default 0 (counts !! "UNKNOWN") + 1)) as Hs. lia.
Qed.

Lemma trivy_fold_count_severity_sum severities : forall counts,
  sum_counts (fold_left count_severity severities counts) =
  sum_counts counts + length severities.
Proof.
  induction severities as [|x l IH]; intros counts; simpl; [lia|].
  rewrite IH, trivy_count_severity_sum. lia.
Qed.

Lemma trivy_count_severity_lookup counts severity k :
  five_buckets counts ->
  let bucket := if bool_decide (severity ∈ buckets) then severity else "UNKNOWN" in
  count_severity counts severity !! k =
  if decide (k = bucket) then Some (default 0 (counts !! k) + 1) else counts !! k.
Proof.
  intros Hfive. cbv zeta. unfold count_severity.
  destruct (counts !! severity) as [n|] eqn:Hn.
  - rewrite bool_decide_eq_true_2 by (apply Hfive; eauto).
    rewrite lookup_insert. destruct (decide (severity = k)) as [<-|Hne].
    + rewrite decide_True by reflexivity. rewrite Hn. reflexivity.
    + rewrite decide_False by congruence. reflexivity.
  - rewrite bool_decide_eq_false_2.
    2:{ intros Hin. apply Hfive in Hin. destruct Hin as [? Hin]. congruence. }
    rewrite lookup_insert. destruct (decide ("UNKNOWN" = k)) as [<-|Hne].
    + rewrite decide_True by reflexivity. reflexivity.
    + rewrite decide_False by congruence. reflexivity.
Qed.

Lemma trivy_count_severity_five counts severity :
  five_buckets counts -> five_buckets (count_severity counts severity).
Proof.
  intros Hfive k. rewrite (trivy_count_severity_lookup counts severity k Hfive).
  cbv zeta. destruct (decide _) as [->|Hne]; [|apply Hfive].
  split; [|eauto]. intros _.
  destruct (bool_decide (severity ∈ buckets)) eqn:Hb.
  - apply bool_decide_eq_true in Hb. exact Hb.
  - unfold buckets. set_solver.
Qed.

Lemma trivy_initial_five : five_buckets initial_severity_counts.
Proof.
  intros k. unfold initial_severity_counts, buckets.
  rewrite !elem_of_cons, elem_of_nil.
  repeat (rewrite lookup_insert; destruct (decide _) as [<-|?]; [split; eauto 10|]).
  rewrite lookup_empty. split; [intros [? Hx]; discriminate Hx | intuition congruence].
Qed.

Lemma trivy_fold_count_severity_lookup (fs : list Finding) : forall counts k,
  five_buckets counts ->
  five_buckets
    (fold_left count_severity (map (fun f => default "UNKNOWN" (Severity f)) fs) counts) /\
  default 0
    (fold_left count_severity (map (fun f => default "UNKNOWN" (Severity f)) fs) counts
       !! k) =
  default 0 (counts !! k) + length (filter (fun f => bucket_of f = k) fs).
Proof.
  induction fs as [|f fs IH]; intros counts k Hfive; simpl; [split; [exact Hfive | lia]|].
  destruct (IH (count_severity counts (default "UNKNOWN" (Severity f))) k
              (trivy_count_severity_five _ _ Hfive)) as [Hfive' Hk].
  split; [exact Hfive'|]. rewrite Hk.
  rewrite (trivy_count_severity_lookup counts _ k Hfive). cbv zeta.
  rewrite filter_cons. fold (bucket_of f).
  destruct (decide (k = bucket_of f)) as [->|Hne].
  - rewrite decide_True by reflexivity. simpl. lia.
  - rewrite decide_False by congruence. lia.
Qed.

(** X10. The tally of a Trivy report. Every finding is listed and counted once:
    the counts add up to the number of findings. The tally keeps exactly
    the five buckets, and each holds the number of findings whose
    severity names it, [UNKNOWN] taking the findings whose severity is
    missing or is none of the five names. *)
Theorem parse_trivy_result_tally (report : TrivyReport) (k : string) :
  let parsed := _parse_trivy_result report in
  let findings := report_findings report in
  total_vulnerabilities parsed = length findings /\
  length (vulnerabilities parsed) = length findings /\
  sum_counts (severity_counts parsed) = length findings /\
  (is_Some (severity_counts parsed !! k) <-> k ∈ buckets) /\
  default 0 (severity_counts parsed !! k) =
    length (filter (fun f => bucket_of f = k) findings).
Proof.
  cbv zeta. unfold _parse_trivy_result, report_findings.
  cbn [total_vulnerabilities vulnerabilities severity_counts].
  match goal with
  | |- context [fold_left parse_target ?results ?init] =>
      destruct (parse_targets_after results init) as (Hlen & Hcounts & _)
  end.
  cbn [st_vulnerabilities st_severity_counts] in Hlen, Hcounts. simpl in Hlen.
  rewrite Hlen, Hcounts.
  destruct (trivy_fold_count_severity_lookup
              (flat_map (fun t => default [] (Vulnerabilities t))
                 (default [] (Results report)))
              initial_severity_counts k trivy_initial_five) as [Hfive Hk].
  split; [reflexivity|]. split; [reflexivity|]. split.
  - rewrite trivy_fold_count_severity_sum, length_map. reflexivity.
  - split; [apply Hfive|]. rewrite Hk.
    assert (Hzero : default 0 (initial_severity_counts !! k) = 0).
    { pose proof (trivy_initial_five k) as Hinit.
      destruct (initial_severity_counts !! k) as [n|] eqn:Hn; [|reflexivity].
      revert Hn. unfold initial_severity_counts.
      repeat (rewrite lookup_insert; destruct (decide _) as [?|?];
              [intros Heq; injection Heq as <-; reflexivity|]).
      rewrite lookup_empty. discriminate. }
    rewrite Hzero. reflexivity.
Qed.

Lemma size_list_to_set_le (l : list string) :
  size (list_to_set l : gset string) <= length l.
Proof.
  induction l as [|x l IH].
  - rewrite list_to_set_nil, size_empty. simpl. lia.
  - rewrite list_to_set_cons, size_union_alt, size_singleton. simpl length.
    assert (Hsub : list_to_set l ∖ {[x]} ⊆ (list_to_set l : gset string))
      by set_solver.
    apply subseteq_size in Hsub. lia.
Qed.

(** X11. The number of vulnerable components of a Trivy report is the number
    of distinct [package@version] keys among its findings: at most the
    number of findings, and zero only when there is none. *)
Theorem parse_trivy_result_components (report : TrivyReport) :
  let parsed := _parse_trivy_result report in
  let keys := map component_key (report_findings report) in
  vulnerable_components_count parsed = length (remove_dups keys) /\
  vulnerable_components_count parsed <= total_vulnerabilities parsed /\
  (vulnerable_components_count parsed = 0 <-> report_findings report = []).
Proof.
  cbv zeta. unfold _parse_trivy_result, report_findings.
  cbn [total_vulnerabilities vulnerable_components_count].
  match goal with
  | |- context [fold_left parse_target ?results ?init] =>
      destruct (parse_targets_after results init) as (Hlen & _ & Hset)
  end.
  cbn [st_vulnerabilities st_vulnerable_components] in Hlen, Hset. simpl in Hlen.
  rewrite union_empty_r_L in Hset. rewrite Hlen, Hset.
  set (fs := flat_map (fun t => default [] (Vulnerabilities t))
               (default [] (Results report))).
  split; [|split].
  - rewrite <- (size_list_to_set (C := gset string)
                  (remove_dups (map component_key fs)))
      by apply NoDup_remove_dups.
    f_equal. apply set_eq. intros x.
    rewrite !elem_of_list_to_set, elem_of_remove_dups. reflexivity.
  - pose proof (size_list_to_set_le (map component_key fs)) as Hle.
    rewrite length_map in Hle. exact Hle.
  - split.
    + intros Hzero. destruct fs as [|f fs']; [reflexivity|]. exfalso.
      apply size_empty_iff in Hzero.
      assert (Hin : component_key f ∈ (list_to_set (map component_key (f :: fs')) : gset string))
        by (simpl; set_solver).
      rewrite Hzero in Hin. set_solver.
    + intros Hfs. rewrite Hfs. simpl map. rewrite list_to_set_nil. apply size_empty.
Qed.

End trivy_facts.

(** ** The scan task as a whole (celery_worker.py) *)

Section task_facts.
Import pystr pyjson spec derived models database trivy_service celery_worker.

Lemma extends_refl t : extends t t.
Proof. unfold extends. repeat split; reflexivity. Qed.

Lemma extends_trans t1 t2 t3 : extends t1 t2 -> extends t2 t3 -> extends t1 t3.
Proof.
  unfold extends. intros (Hs1 & Hv1 & Hr1 & Hl1) (Hs2 & Hv2 & Hr2 & Hl2).
  repeat split; [congruence | etrans; eassumption ..].
Qed.

Lemma insert_rows_extends t rows t' : insert_rows t rows = Ok t' -> extends t t'.
Proof.
  intros Hrun. apply insert_rows_tables in Hrun.
  destruct Hrun as (Hs & Hv & Hr & Hl). unfold extends.
  rewrite Hs, Hv, Hr, Hl. repeat split; apply prefix_app_r; reflexivity.
Qed.

Lemma keeps_ret {A} (a : A) : keeps (ret a).
Proof. intros t0 s Hs. exact Hs. Qed.

Lemma keeps_raise {A} e : keeps (@raise A e).
Proof. intros t0 s Hs. exact Hs. Qed.

Lemma keeps_lift {A} (r : result A) : keeps (lift r).
Proof. intros t0 s Hs. exact Hs. Qed.

Lemma keeps_query : keeps query.
Proof. intros t0 s Hs. exact Hs. Qed.

Lemma keeps_add r : keeps (add r).
Proof. intros t0 s Hs. exact Hs. Qed.

Lemma keeps_flush : keeps flush.
Proof.
  intros t0 s [H0 Ht]. unfold flush.
  destruct (negb (active s)); [split; assumption|].
  destruct (insert_rows (transaction s) (pending s)) as [t'|e] eqn:Hrows;
    simpl; split; try assumption.
  - eapply extends_trans; [exact Ht|]. eapply insert_rows_extends. exact Hrows.
  - apply extends_refl.
Qed.

Lemma keeps_commit : keeps commit.
Proof.
  intros t0 s Hs. unfold commit.
  pose proof (keeps_flush t0 s Hs) as Hf.
  destruct (flush s) as [[[]|e] s1]; simpl in *; [|exact Hf].
  destruct Hf as [H0 Ht]. split; [|apply extends_refl].
  eapply extends_trans; eassumption.
Qed.

Lemma keeps_rollback : keeps rollback.
Proof. intros t0 s [H0 Ht]. split; [exact H0 | apply extends_refl]. Qed.

Lemma keeps_bind {A B} (m : db A) (k : A -> db B) :
  keeps m -> (forall a, keeps (k a)) -> keeps (bind m k).
Proof.
  intros Hm Hk t0 s Hs. unfold bind. specialize (Hm t0 s Hs).
  destruct (m s) as [[a|e] s1]; simpl in *; [apply Hk; exact Hm | exact Hm].
Qed.

Lemma keeps_try_except {A} (m : db A) (h : exn -> db A) :
  keeps m -> (forall e, keeps (h e)) -> keeps (try_except m h).
Proof.
  intros Hm Hh t0 s Hs. unfold try_except. specialize (Hm t0 s Hs).
  destruct (m s) as [[a|e] s1]; simpl in *; [exact Hm | apply Hh; exact Hm].
Qed.

Lemma keeps_try_finally {A} (m : db A) (f : db unit) :
  keeps m -> keeps f -> keeps (try_finally m f).
Proof.
  intros Hm Hf t0 s Hs. unfold try_finally. specialize (Hm t0 s Hs).
  destruct (m s) as [r s1]. simpl in Hm. specialize (Hf t0 s1 Hm).
  destruct (f s1) as [[[]|e] s2]; exact Hf.
Qed.

Section with_libraries.
Context `{StrLower} `{ReportDecoder} `{Library}.

Lemma keeps_save_vulnerability scan_result vuln_data :
  keeps (save_vulnerability scan_result vuln_data).
Proof.
  unfold save_vulnerability.
  apply keeps_bind; [apply keeps_query|]. intros tables.
  apply keeps_bind; [|intros v; apply keeps_add].
  destruct (find _ _); [apply keeps_ret|].
  apply keeps_bind; [apply keeps_lift|]. intros published.
  apply keeps_bind; [apply keeps_lift|]. intros modified.
  apply keeps_bind; [apply keeps_add|]. intros _.
  apply keeps_bind; [apply keeps_flush|]. intros _. apply keeps_ret.
Qed.

Lemma keeps_save_vulnerabilities scan_result vulns :
  keeps (save_vulnerabilities scan_result vulns).
Proof.
  induction vulns as [|v vulns IH]; simpl; [apply keeps_ret|].
  apply keeps_bind; [apply keeps_save_vulnerability | intros _; exact IH].
Qed.

Lemma keeps_scan_and_save run duration sbom_id sbom_uuid :
  keeps (scan_and_save run duration sbom_id sbom_uuid).
Proof.
  unfold scan_and_save.
  apply keeps_bind; [apply keeps_query|]. intros tables.
  destruct (find _ _); [|apply keeps_ret].
  destruct (trivy_service.scan_sbom run); [|apply keeps_raise].
  apply keeps_bind; [apply keeps_lift|]. intros total.
  apply keeps_bind; [apply keeps_query|]. intros tables'.
  apply keeps_bind; [apply keeps_add|]. intros _.
  apply keeps_bind; [apply keeps_flush|]. intros _.
  apply keeps_bind; [apply keeps_save_vulnerabilities|]. intros _.
  apply keeps_bind; [apply keeps_commit|]. intros _. apply keeps_ret.
Qed.

Lemma keeps_record_failure sbom_id e : keeps (record_failure sbom_id e).
Proof.
  unfold record_failure.
  apply keeps_bind; [|intros _; apply keeps_ret].
  apply keeps_try_except; [|intros _; apply keeps_rollback].
  apply keeps_bind; [apply keeps_query|]. intros tables.
  apply keeps_bind; [apply keeps_add | intros _; apply keeps_commit].
Qed.

Lemma keeps_scan_sbom run duration sbom_id :
  keeps (celery_worker.scan_sbom run duration sbom_id).
Proof.
  unfold celery_worker.scan_sbom.
  apply keeps_try_finally; [|apply keeps_rollback].
  apply keeps_try_except; [|intros e; apply keeps_record_failure].
  destruct (UUID sbom_id); [apply keeps_scan_and_save | apply keeps_ret].
Qed.

(** X12. The task only ever appends: whatever Trivy did and however the task
    ends, every row that was committed before is still there, in the same
    place, and the stored SBOMs are the same. *)
Theorem run_task_only_appends (t : Tables) (run : run_outcome)
    (duration : Z) (sbom_id : string) :
  extends t (snd (run_task t run duration sbom_id)).
Proof.
  unfold run_task.
  pose proof (keeps_scan_sbom run duration sbom_id t (SessionLocal t)) as Hk.
  destruct (celery_worker.scan_sbom run duration sbom_id (SessionLocal t)) as [r s].
  simpl in *. apply Hk. split; apply extends_refl.
Qed.

Lemma record_failure_returns sbom_id e s :
  fst (record_failure sbom_id e s) = Ok (TaskFailed (exn_str e)).
Proof.
  unfold record_failure. unfold bind at 1. unfold try_except.
  match goal with
  | |- context [match bind query ?k s with _ => _ end] =>
      destruct (bind query k s) as [[[]|e'] s1]
  end; reflexivity.
Qed.

(** X13. The task never raises: every failure, of Trivy, of the data or of the
    database, comes back as a result, and the only results are a
    success and a failure with its message. *)
Theorem run_task_never_raises (t : Tables) (run : run_outcome)
    (duration : Z) (sbom_id : string) :
  exists r, fst (run_task t run duration sbom_id) = Ok r.
Proof.
  unfold run_task, celery_worker.scan_sbom, try_finally, try_except.
  match goal with
  | |- context [match ?body (SessionLocal t) with _ => _ end] =>
      destruct (body (SessionLocal t)) as [[r|e] s1]
  end.
  - exists r. reflexivity.
  - pose proof (record_failure_returns sbom_id e s1) as Hr.
    destruct (record_failure sbom_id e s1) as [r s2]. simpl in Hr. subst r.
    eexists. reflexivity.
Qed.

End with_libraries.
End task_facts.

(** ** What a successful task leaves (celery_worker.py) *)

Section task_success_facts.
Import pystr pyjson spec derived models database trivy_service celery_worker.

Lemma bind_ok {A B} (m : db A) (k : A -> db B) s b s' :
  bind m k s = (Ok b, s') ->
  exists a s1, m s = (Ok a, s1) /\ k a s1 = (Ok b, s').
Proof.
  unfold bind. destruct (m s) as [[a|e] s1]; [eauto | discriminate].
Qed.

Lemma omap_app_rows {B} (f : row -> option B) (l1 l2 : list row) :
  omap f (l1 ++ l2) = omap f l1 ++ omap f l2.
Proof.
  induction l1 as [|r l1 IH]; [reflexivity|].
  change (omap f ((r :: l1) ++ l2))
    with (match f r with Some b => b :: omap f (l1 ++ l2) | None => omap f (l1 ++ l2) end).
  change (omap f (r :: l1))
    with (match f r with Some b => b :: omap f l1 | None => omap f l1 end).
  rewrite IH. destruct (f r); reflexivity.
Qed.

Lemma flush_ok s u s' :
  flush s = (Ok u, s') ->
  committed s' = committed s /\ pending s' = [] /\
  all_scan_results s' = all_scan_results s /\
  all_scan_vulnerabilities s' = all_scan_vulnerabilities s.
Proof.
  unfold flush. destruct (negb (active s)); [discriminate|].
  destruct (insert_rows (transaction s) (pending s)) as [t'|e] eqn:Hrows;
    [|discriminate].
  intros Heq. injection Heq as _ <-.
  apply insert_rows_tables in Hrows. destruct Hrows as (_ & _ & Hr & Hl).
  unfold all_scan_results, all_scan_vulnerabilities. simpl.
  rewrite Hr, Hl, !app_nil_r. repeat split.
Qed.

Lemma commit_ok s u s' :
  commit s = (Ok u, s') ->
  scan_results (committed s') = all_scan_results s /\
  scan_vulnerabilities (committed s') = all_scan_vulnerabilities s.
Proof.
  unfold commit. destruct (flush s) as [[u'|e] s1] eqn:Hflush; [|discriminate].
  intros Heq. injection Heq as _ <-.
  apply flush_ok in Hflush. destruct Hflush as (_ & Hp & Hr & Hl).
  unfold all_scan_results, all_scan_vulnerabilities in Hr, Hl.
  rewrite Hp in Hr, Hl. simpl in Hr, Hl. rewrite !app_nil_r in Hr, Hl.
  simpl. split; assumption.
Qed.

Lemma add_all r s :
  committed (snd (add r s)) = committed s /\
  all_scan_results (snd (add r s)) =
    all_scan_results s ++ omap row_scan_result [r] /\
  all_scan_vulnerabilities (snd (add r s)) =
    all_scan_vulnerabilities s ++ omap row_scan_vulnerability [r].
Proof.
  unfold add, all_scan_results, all_scan_vulnerabilities. simpl.
  rewrite !omap_app_rows, !app_assoc. repeat split.
Qed.

Section with_libraries.
Context `{StrLower} `{ReportDecoder} `{Library}.

Lemma save_vulnerability_ok scan_result vuln_data s u s' :
  save_vulnerability scan_result vuln_data s = (Ok u, s') ->
  committed s' = committed s /\
  all_scan_results s' = all_scan_results s /\
  exists sv,
    all_scan_vulnerabilities s' = all_scan_vulnerabilities s ++ [sv] /\
    association sv = finding_association (sr_id scan_result) vuln_data.
Proof.
  unfold save_vulnerability. intros Hrun.
  apply bind_ok in Hrun. destruct Hrun as (tables & s0 & Hq & Hrun).
  unfold query in Hq. injection Hq as _ <-.
  apply bind_ok in Hrun. destruct Hrun as (v & s1 & Hv & Hadd).
  assert (Hs1 : committed s1 = committed s /\
                all_scan_results s1 = all_scan_results s /\
                all_scan_vulnerabilities s1 = all_scan_vulnerabilities s).
  { destruct (find _ _) as [v0|].
    - unfold ret in Hv. injection Hv as _ <-. repeat split.
    - apply bind_ok in Hv. destruct Hv as (published & s2 & Hp & Hv).
      unfold lift in Hp. injection Hp as _ <-.
      apply bind_ok in Hv. destruct Hv as (modified & s3 & Hm & Hv).
      unfold lift in Hm. injection Hm as _ <-.
      apply bind_ok in Hv. destruct Hv as ([] & s4 & Ha & Hv).
      apply bind_ok in Hv. destruct Hv as ([] & s5 & Hf & Hv).
      unfold ret in Hv. injection Hv as _ <-.
      apply flush_ok in Hf. destruct Hf as (Hc & _ & Hr & Hl).
      rewrite Hc, Hr, Hl.
      match type of Ha with
      | add ?r s = _ => pose proof (add_all r s) as (Hc' & Hr' & Hl')
      end.
      rewrite Ha in Hc', Hr', Hl'. simpl snd in Hc', Hr', Hl'.
      rewrite Hc', Hr', Hl'. simpl. rewrite !app_nil_r. repeat split. }
  destruct Hs1 as (Hc & Hr & Hl).
  match type of Hadd with
  | add ?r s1 = _ => pose proof (add_all r s1) as (Hc' & Hr' & Hl')
  end.
  rewrite Hadd in Hc', Hr', Hl'. simpl snd in Hc', Hr', Hl'.
  rewrite Hc', Hr', Hl', Hc, Hr, Hl. simpl. rewrite app_nil_r.
  split; [reflexivity|]. split; [reflexivity|].
  eexists. split; reflexivity.
Qed.

Lemma save_vulnerabilities_ok scan_result vulns : forall s u s',
  save_vulnerabilities scan_result vulns s = (Ok u, s') ->
  committed s' = committed s /\
  all_scan_results s' = all_scan_results s /\
  exists svs,
    all_scan_vulnerabilities s' = all_scan_vulnerabilities s ++ svs /\
    map association svs = map (finding_association (sr_id scan_result)) vulns.
Proof.
  induction vulns as [|v vulns IH]; intros s u s' Hrun; simpl in Hrun.
  - unfold ret in Hrun. injection Hrun as _ <-.
    repeat split. exists []. rewrite app_nil_r. split; reflexivity.
  - apply bind_ok in Hrun. destruct Hrun as ([] & s1 & Hstep & Hrun).
    apply save_vulnerability_ok in Hstep.
    destruct Hstep as (Hc1 & Hr1 & sv & Hl1 & Hsv).
    apply IH in Hrun. destruct Hrun as (Hc & Hr & svs & Hl & Hsvs).
    rewrite Hc, Hr, Hl, Hc1, Hr1, Hl1.
    split; [reflexivity|]. split; [reflexivity|].
    exists (sv :: svs). rewrite <- app_assoc. split; [reflexivity|].
    simpl. rewrite Hsv, Hsvs. reflexivity.
Qed.

(** X14. A task that reports success has written the scan it reports: Trivy
    gave a result, one [completed] row with the returned key and counts
    was put after the scan results there were, and after the associations
    there were one row per finding, in the order of the report, each
    under that key with the package, version and target of its finding. *)
Theorem run_task_success (t : Tables) (run : run_outcome) (duration : Z)
    (sbom_id : string) sbom_id' id total vulnerable found counts duration' :
  fst (run_task t run duration sbom_id) =
    Ok (TaskSuccess sbom_id' id total vulnerable found counts duration') ->
  exists parsed row new,
    trivy_service.scan_sbom run = Success parsed /\
    sbom_id' = sbom_id /\ duration' = duration /\
    found = total_vulnerabilities parsed /\
    vulnerable = vulnerable_components_count parsed /\
    counts = trivy_service.severity_counts parsed /\
    scan_results (snd (run_task t run duration sbom_id)) = scan_results t ++ [row] /\
    sr_id row = id /\ status row = "completed" /\
    models.total_components row = total /\ vulnerable_count row = vulnerable /\
    scan_vulnerabilities (snd (run_task t run duration sbom_id)) =
      scan_vulnerabilities t ++ new /\
    map association new =
      map (finding_association id) (trivy_service.vulnerabilities parsed).
Proof.
  unfold run_task, celery_worker.scan_sbom, try_finally, try_except.
  match goal with
  | |- context [match ?body (SessionLocal t) with _ => _ end] =>
      destruct (body (SessionLocal t)) as [[r|e] s1] eqn:Hbody
  end.
  2:{ pose proof (record_failure_returns sbom_id e s1) as Hr.
      destruct (record_failure sbom_id e s1) as [r s2]. simpl in Hr. subst r.
      simpl. discriminate. }
  simpl. intros Hr. injection Hr as ->.
  destruct (UUID sbom_id) as [sbom_uuid|]; [|discriminate Hbody].
  unfold scan_and_save in Hbody.
  apply bind_ok in Hbody. destruct Hbody as (tables & s0 & Hq & Hbody).
  unfold query in Hq. injection Hq as <- <-.
  destruct (find _ _) as [sbom|]; [|discriminate Hbody].
  destruct (trivy_service.scan_sbom run) as [parsed|error]; [|discriminate Hbody].
  apply bind_ok in Hbody. destruct Hbody as (total0 & s2 & Hcount & Hbody).
  unfold lift in Hcount. injection Hcount as _ <-.
  apply bind_ok in Hbody. destruct Hbody as (tables & s3 & Hq & Hbody).
  unfold query in Hq. injection Hq as <- <-.
  apply bind_ok in Hbody. destruct Hbody as ([] & s4 & Hadd & Hbody).
  apply bind_ok in Hbody. destruct Hbody as ([] & s5 & Hflush & Hbody).
  apply bind_ok in Hbody. destruct Hbody as ([] & s6 & Hsave & Hbody).
  apply bind_ok in Hbody. destruct Hbody as ([] & s7 & Hcommit & Hret).
  unfold ret in Hret. injection Hret as <- <- <- <- <- <- <- <-.
  match type of Hadd with
  | add (ScanResultRow ?built) _ = _ =>
      set (row := built) in *;
      pose proof (add_all (ScanResultRow row) (SessionLocal t)) as (_ & Hr4 & Hl4)
  end.
  rewrite Hadd in Hr4, Hl4. simpl snd in Hr4, Hl4.
  apply flush_ok in Hflush. destruct Hflush as (_ & _ & Hr5 & Hl5).
  apply save_vulnerabilities_ok in Hsave.
  destruct Hsave as (_ & Hr6 & new & Hl6 & Hnew).
  apply commit_ok in Hcommit. destruct Hcommit as (Hr7 & Hl7).
  exists parsed, row, new.
  rewrite Hr7, Hl7, Hr6, Hl6, Hr5, Hl5, Hr4, Hl4.
  unfold all_scan_results, all_scan_vulnerabilities. simpl.
  rewrite !app_nil_r. repeat split. exact Hnew.
Qed.

End with_libraries.

Lemma run_task_success_witness :
  match fst (@run_task ascii_str_lower
               (examples.decoder_of
                  (examples.report
                     (examples.finding "CVE-2021-45046" "log4j-api" None)))
               examples.library examples.store_1 (examples.exited 1) 3
               "9f1c2d3e-0000-4000-8000-000000000001") with
  | Ok (TaskSuccess _ id _ _ found _ _) => id = 1 /\ found = 2
  | _ => False
  end.
Proof.
  destruct (fst (@run_task ascii_str_lower
               (examples.decoder_of
                  (examples.report
                     (examples.finding "CVE-2021-45046" "log4j-api" None)))
               examples.library examples.store_1 (examples.exited 1) 3
               "9f1c2d3e-0000-4000-8000-000000000001"))
    as [[sid id total vulnerable found counts d|error]|e] eqn:Hrun.
  - destruct (@run_task_success ascii_str_lower _ examples.library _ _ _ _
                _ _ _ _ _ _ _ Hrun)
      as (parsed & row & new & Hscan & _ & _ & Hfound & _ & _ & _ & Hid & _).
    vm_compute in Hscan. injection Hscan as <-.
    rewrite <- Hid, Hfound. split; [|reflexivity].
    vm_compute in Hrun. injection Hrun as _ Hid' _. congruence.
  - vm_compute in Hrun. discriminate Hrun.
  - vm_compute in Hrun. discriminate Hrun.
Defined.

End task_success_facts.

(** ** Parse errors (sbom_parser.py) and the database refresh *)

Section parse_error_facts.
Import pystr pyjson sbom_parser trivy_service trivy_maintenance.

(** X15. Whatever goes wrong in [parse] reaches the caller as an
    [SBOMParserException] whose message starts with
    [Failed to parse SBOM: ]; a file name that ends neither in [.json] nor
    in [.xml] is refused whatever the content is. *)
Theorem parse_raises_parser_exception `{StrLower} `{Decoders}
    (content filename : string) :
  (forall e, parse content filename = Raise e ->
     exists msg, e = SBOMParserException ("Failed to parse SBOM: " ++ msg)) /\
  (endswith filename ".json" = false -> endswith filename ".xml" = false ->
   parse content filename =
   Raise (SBOMParserException
            ("Failed to parse SBOM: Unsupported file format: " ++ filename))).
Proof.
  unfold parse, result_catch. split.
  - intros e.
    destruct (if endswith filename ".json" then _ else _) as [call|e'];
      [discriminate|].
    intros Heq. injection Heq as <-. eauto.
  - intros -> ->. reflexivity.
Qed.

Lemma parse_raises_parser_exception_witness :
  @parse ascii_str_lower
    (decoders_of JNull (mkElement "bom" [] None [])) "payload" "bom.yaml" =
  Raise (SBOMParserException
           "Failed to parse SBOM: Unsupported file format: bom.yaml").
Proof.
  apply (proj2 (@parse_raises_parser_exception ascii_str_lower
                  (decoders_of JNull (mkElement "bom" [] None []))
                  "payload" "bom.yaml")); reflexivity.
Defined.

(** X16. The refresh task reports success exactly when [trivy --version] ran
    and exited with code 0, whatever the download then did: a download
    that failed or timed out is only visible in the statistics the
    success carries. *)
Theorem update_trivy_db_status (dir : string) (version_run update_run : run_outcome)
    (updated_at now : string) :
  (check_trivy_installed version_run = true <->
   exists p, version_run = Completed p /\ returncode p = 0%Z) /\
  (check_trivy_installed version_run = true ->
   update_trivy_db dir version_run update_run updated_at now =
   UpdateTaskSuccess (update_database dir update_run updated_at) now) /\
  (check_trivy_installed version_run = false ->
   update_trivy_db dir version_run update_run updated_at now =
   UpdateTaskFailed "Trivy is not installed" now) /\
  ((exists message, update_database dir update_run updated_at =
                    UpdateSuccess updated_at dir message) <->
   exists p, update_run = Completed p /\ returncode p = 0%Z).
Proof.
  split; [|split; [|split]].
  - unfold check_trivy_installed. destruct version_run as [p| |e].
    + rewrite Z.eqb_eq. split; [eauto|]. intros (p' & Heq & Hc). congruence.
    + split; [discriminate|]. intros (p & Heq & _). discriminate.
    + split; [discriminate|]. intros (p & Heq & _). discriminate.
  - unfold update_trivy_db. intros ->. reflexivity.
  - unfold update_trivy_db. intros ->. reflexivity.
  - unfold update_database. destruct update_run as [p| |e].
    + destruct (Z.eqb_spec (returncode p) 0) as [Hc|Hc].
      * split; eauto.
      * split; [intros [m Hm]; discriminate|].
        intros (p' & Heq & Hc'). congruence.
    + split; [intros [m Hm]; discriminate | intros (p & Heq & _); discriminate].
    + split; [intros [m Hm]; discriminate | intros (p & Heq & _); discriminate].
Qed.

Lemma update_trivy_db_status_witness :
  update_trivy_db "/cache" (examples.exited 0) RunTimeoutExpired "12:00" "12:10" =
  UpdateTaskSuccess (UpdateFailed "Trivy DB update timed out" "12:00") "12:10".
Proof.
  apply (proj1 (proj2 (update_trivy_db_status "/cache" (examples.exited 0)
                         RunTimeoutExpired "12:00" "12:10"))).
  reflexivity.
Defined.

End parse_error_facts.

(** ** Ranges whose bounds are crossed (scanner.py) *)

Section crossed_range_facts.
Import pystr spec scanner.

Lemma compare_key_antisym a : forall b,
  release.compare_key b a = CompOpp (release.compare_key a b).
Proof.
  induction a as [|x a IH]; intros [|y b]; simpl; try reflexivity.
  rewrite (N.compare_antisym x y).
  destruct (x ?= y)%N; simpl; [apply IH | reflexivity | reflexivity].
Qed.

Lemma compare_key_le_trans a : forall b c,
  release.compare_key a b <> Gt -> release.compare_key b c <> Gt ->
  release.compare_key a c <> Gt.
Proof.
  induction a as [|x a IH]; intros [|y b] [|z c]; simpl; try congruence.
  destruct (N.compare_spec x y) as [->|Hxy|Hxy]; [| |congruence].
  - destruct (N.compare_spec y z) as [->|Hyz|Hyz]; [apply IH | congruence | congruence].
  - intros _. destruct (N.compare_spec y z) as [->|Hyz|Hyz]; [| |congruence]; intros _.
    + destruct (N.compare_spec x z); [lia | congruence | lia].
    + destruct (N.compare_spec x z); [lia | congruence | lia].
Qed.

Lemma release_vle_trans (a b c : @Version release_version) :
  vle a b = true -> vle b c = true -> vle a c = true.
Proof.
  unfold vle. simpl. intros Hab Hbc.
  pose proof (compare_key_le_trans a b c) as Ht.
  destruct (release.compare_key a b); try discriminate;
    destruct (release.compare_key b c); try discriminate;
    destruct (release.compare_key a c); try reflexivity;
    exfalso; apply Ht; congruence.
Qed.

(** X3. A criterion whose inclusive end is below its inclusive start matches
    no version that parses, provided the versions are totally ordered and
    the exclusive start, if present, parses. *)
Theorem check_version_range_crossed `{PkgVersion}
    (v start_text end_text : string) (cv s e : Version)
    (startIncl startExcl endIncl endExcl : option string) :
  (forall a b, vcompare b a = CompOpp (vcompare a b)) ->
  (forall a b c, vle a b = true -> vle b c = true -> vle a c = true) ->
  pkg_version_parse v = Some cv ->
  truthy startIncl = Some start_text -> pkg_version_parse start_text = Some s ->
  parseable startExcl ->
  truthy endIncl = Some end_text -> pkg_version_parse end_text = Some e ->
  vlt e s = true ->
  _check_version_range v startIncl startExcl endIncl endExcl = false.
Proof.
  intros Hanti Htrans Hv Hsi Hs Hse Hei He Hcross.
  assert (Hbound : forall bound text b (f : Version -> bool),
            truthy bound = Some text -> pkg_version_parse text = Some b ->
            bound_rejects bound f = Some (f b)).
  { intros bound text b f Ht Hb. unfold bound_rejects.
    rewrite Ht. cbv beta iota. rewrite Hb. reflexivity. }
  unfold _check_version_range, _check_version_range_try.
  rewrite Hv. simpl.
  rewrite (Hbound startIncl start_text s _ Hsi Hs). simpl.
  destruct (vlt cv s) eqn:Hlow; simpl; [reflexivity|].
  destruct (bound_rejects_parseable startExcl (fun b => vle cv b) Hse)
    as (r2 & -> & _). simpl.
  destruct r2; simpl; [reflexivity|].
  rewrite (Hbound endIncl end_text e _ Hei He). simpl.
  destruct (vgt cv e) eqn:Hhigh; simpl; [reflexivity|].
  exfalso.
  assert (Hsc : vle s cv = true).
  { unfold vle. rewrite (Hanti cv s). unfold vlt in Hlow.
    destruct (vcompare cv s); simpl; congruence. }
  assert (Hce : vle cv e = true).
  { unfold vle. unfold vgt in Hhigh. destruct (vcompare cv e); congruence. }
  pose proof (Htrans s cv e Hsc Hce) as Hse'.
  unfold vle in Hse'. unfold vlt in Hcross. rewrite (Hanti e s) in Hse'.
  destruct (vcompare e s); simpl in *; congruence.
Qed.

Lemma check_version_range_crossed_witness :
  @_check_version_range release_version "1.5" (Some "2.0") None (Some "1.0") None = false.
Proof.
  apply (@check_version_range_crossed release_version "1.5" "2.0" "1.0"
           [1%N; 5%N] [2%N] [1%N]).
  - intros a b. apply compare_key_antisym.
  - exact release_vle_trans.
  - reflexivity.
  - reflexivity.
  - reflexivity.
  - intros x Hx. discriminate Hx.
  - reflexivity.
  - reflexivity.
  - reflexivity.
Defined.

End crossed_range_facts.

(** ** Deleting an SBOM *)

Section delete_facts.
Import models database routers.
Context `{Library}.

Lemma find_sbom_id (u : string) (l : list SBOM) (sbom : SBOM) :
  find (fun s => String.eqb (sbom_id s) u) l = Some sbom -> sbom_id sbom = u.
Proof.
  intros Hfind. apply find_some in Hfind. destruct Hfind as [_ Heq].
  now apply String.eqb_eq in Heq.
Qed.

(** X17. Deleting a stored SBOM answers with the success message and
    commits: the SBOM's row and every scan result of that SBOM are gone,
    every other row of the two tables is kept in order, and the stored
    vulnerabilities and the findings of all scans, those of the deleted
    scan results included, are left as they were. *)
Theorem delete_sbom_removes (t : Tables) (id u : string) (sbom : SBOM) :
  UUID id = Some u ->
  find (fun s => String.eqb (sbom_id s) u) (sboms t) = Some sbom ->
  exists t',
    run_delete_sbom t id = (Ok (Response deleted_message), t') /\
    sboms t' = filter (fun s => sbom_id s <> u) (sboms t) /\
    scan_results t' = filter (fun r => sr_sbom_id r <> u) (scan_results t) /\
    vulnerabilities t' = vulnerabilities t /\
    scan_vulnerabilities t' = scan_vulnerabilities t.
Proof.
  intros Huuid Hfind.
  pose proof (find_sbom_id _ _ _ Hfind) as Hid.
  unfold run_delete_sbom, try_finally, delete_sbom, try_except.
  rewrite Huuid.
  unfold bind at 1. unfold query at 1. cbn [SessionLocal transaction].
  rewrite Hfind.
  unfold bind, delete_scan_results, delete, commit, flush, ret, close, rollback.
  cbn. rewrite Hid.
  eexists. split; [reflexivity|]. cbn. repeat split.
Qed.

(** X18. An identifier that is no UUID is answered with status 400 and an
    identifier of no stored SBOM with status 404; in both cases the
    database is left as it was. *)
Theorem delete_sbom_refuses (t : Tables) (id : string) :
  match UUID id with
  | None =>
      run_delete_sbom t id = (Ok (HTTPException 400 "Invalid SBOM ID format"), t)
  | Some u =>
      existsb (fun s => String.eqb (sbom_id s) u) (sboms t) = false ->
      run_delete_sbom t id = (Ok (HTTPException 404 "SBOM not found"), t)
  end.
Proof.
  unfold run_delete_sbom, try_finally, delete_sbom, try_except.
  destruct (UUID id) as [u|]; [|reflexivity].
  intros Hnone.
  unfold bind at 1. unfold query at 1. cbn [SessionLocal transaction].
  destruct (find _ (sboms t)) as [sbom|] eqn:Hfind; [|reflexivity].
  apply find_some in Hfind. destruct Hfind as [Hin Heq].
  assert (existsb (fun s => String.eqb (sbom_id s) u) (sboms t) = true) as Hex
    by (apply existsb_exists; eauto).
  congruence.
Qed.

End delete_facts.

Lemma delete_sbom_removes_witness :
  exists t',
    routers.run_delete_sbom (H := examples.library) scanned.store
      (models.sbom_id examples.sbom_1)
    = (Ok (routers.Response routers.deleted_message), t') /\
    database.sboms t' = [] /\
    database.scan_results t' = [] /\
    database.vulnerabilities t' = database.vulnerabilities scanned.store /\
    database.scan_vulnerabilities t' = [scanned.finding_1].
Proof.
  exact (delete_sbom_removes (H := examples.library) scanned.store
           (models.sbom_id examples.sbom_1) (models.sbom_id examples.sbom_1)
           examples.sbom_1 eq_refl eq_refl).
Defined.

(** ** The extractors and the count of components *)

Section extractor_facts.
Import pystr pyjson sbom_parser extractors.
Local Open Scope result_scope.

Ltac bind_step H :=
  match type of H with
  | result_bind ?r _ = Ok _ =>
      let E := fresh "E" in
      destruct r eqn:E; [cbn [result_bind] in H | discriminate H]
  end.

Lemma for_each_length {A B} (body : A -> result B) l ys :
  for_each body l = Ok ys -> length ys = length l.
Proof.
  revert ys. induction l as [|x l IH]; intros ys Hrun; simpl in Hrun.
  - injection Hrun as <-. reflexivity.
  - bind_step Hrun. bind_step Hrun. injection Hrun as <-.
    simpl. f_equal. now apply IH.
Qed.

Lemma get_object v key default r :
  get v key default = Ok r -> exists members, v = JObject members.
Proof. destruct v; simpl; intros Hget; try discriminate Hget. eauto. Qed.

(** What the loop of an extractor accepts has as many entries as the
    loop gives components: a list of dictionaries, or an empty dictionary
    or string. *)
Lemma listed_len {B} (body : json -> result B) listed items ys :
  (forall x y, body x = Ok y -> exists members, x = JObject members) ->
  iter listed = Ok items ->
  for_each body items = Ok ys ->
  len listed = Ok (length ys).
Proof.
  intros Hbody Hiter Hrun.
  pose proof (for_each_length _ _ _ Hrun) as Hlen.
  destruct listed as [| | |s|l|members]; simpl in Hiter; try discriminate Hiter;
    injection Hiter as <-; simpl.
  - destruct s as [|c s]; simpl in *; [congruence|].
    bind_step Hrun. apply Hbody in E. destruct E as [? E]. discriminate E.
  - congruence.
  - destruct members as [|[k v] members]; simpl in *; [congruence|].
    bind_step Hrun. apply Hbody in E. destruct E as [? E]. discriminate E.
Qed.

Lemma cyclonedx_component_object comp c :
  CycloneDXParser.component comp = Ok c -> exists members, comp = JObject members.
Proof.
  unfold CycloneDXParser.component. intros Hc. bind_step Hc.
  eapply get_object; eassumption.
Qed.

Lemma spdx_component_object pkg c :
  SPDXParser.component pkg = Ok c -> exists members, pkg = JObject members.
Proof.
  unfold SPDXParser.component. intros Hc. bind_step Hc.
  eapply get_object; eassumption.
Qed.

Lemma cyclonedx_parse_json_ok data parsed :
  CycloneDXParser.parse_json data = Ok parsed ->
  format parsed = "cyclonedx" /\ raw_data parsed = data /\
  exists listed,
    get data "components" (JArray []) = Ok listed /\
    len listed = Ok (component_count parsed).
Proof.
  unfold CycloneDXParser.parse_json. intros Hp.
  repeat bind_step Hp. injection Hp as <-. cbn.
  repeat split. eexists. split; [reflexivity|].
  eapply listed_len; eauto using cyclonedx_component_object.
Qed.

Lemma spdx_parse_json_ok data parsed :
  SPDXParser.parse_json data = Ok parsed ->
  format parsed = "spdx" /\ raw_data parsed = data /\
  exists listed,
    get data "packages" (JArray []) = Ok listed /\
    len listed = Ok (component_count parsed).
Proof.
  unfold SPDXParser.parse_json. intros Hp.
  repeat bind_step Hp. injection Hp as <-. cbn.
  repeat split. eexists. split; [reflexivity|].
  eapply listed_len; eauto using spdx_component_object.
Qed.

Lemma lower_cyclonedx `{StrLower} :
  (forall s, Forall spec.name_char (spec.chars s) -> str_lower s = s) ->
  str_lower "cyclonedx" = "cyclonedx" /\ str_lower "spdx" = "spdx".
Proof.
  intros Hlower.
  split; apply Hlower; repeat constructor; left; reflexivity.
Qed.

(** X19. The number of components a scan records for an uploaded file is
    read from the stored document, not from the components the upload
    extracted. For a JSON file the two agree: it is the number the
    upload answered with. For an XML file the stored document is empty,
    so the scan records no component, whatever the file lists. *)
Theorem stored_component_count `{StrLower} `{ElementPath}
    (call : extractor_call) (parsed : Parsed) (id filename : string) :
  (forall s, Forall spec.name_char (spec.chars s) -> str_lower s = s) ->
  extract call = Ok parsed ->
  celery_worker.count_components (stored id filename parsed) =
    Ok (match call with
        | CycloneDXParser_parse_json _ | SPDXParser_parse_json _ =>
            component_count parsed
        | CycloneDXParser_parse_xml _ | SPDXParser_parse_xml _ => 0
        end).
Proof.
  intros Hlower Hcall.
  destruct (lower_cyclonedx Hlower) as [Hc Hs].
  unfold celery_worker.count_components, stored. cbn [models.format models.content_json].
  destruct call as [data|data|root|root]; cbn [extract] in Hcall.
  - apply cyclonedx_parse_json_ok in Hcall.
    destruct Hcall as (-> & -> & listed & Hget & Hlen).
    rewrite Hc. cbn. rewrite Hget. exact Hlen.
  - apply spdx_parse_json_ok in Hcall.
    destruct Hcall as (-> & -> & listed & Hget & Hlen).
    rewrite Hs. cbn. rewrite Hget. exact Hlen.
  - injection Hcall as <-. cbn. rewrite Hc. reflexivity.
  - injection Hcall as <-. cbn. rewrite Hs. reflexivity.
Qed.

(** X20. A JSON file that parses holds a JSON object, and the parse keeps
    that object as the document to store. Its format is [cyclonedx] when
    [bomFormat] is [CycloneDX], else [spdx], and then the object has the
    key [spdxVersion]; the components counted are the entries under
    [components], respectively [packages]. *)
Theorem parse_sbom_json `{StrLower} `{Decoders} `{ElementPath}
    (content filename : string) (parsed : Parsed) :
  endswith filename ".json" = true ->
  parse_sbom content filename = Ok parsed ->
  exists text members,
    utf8_decode content = Some text /\
    json_loads text = Some (JObject members) /\
    raw_data parsed = JObject members /\
    (if from_option (is_string "CycloneDX") false (dict_get members "bomFormat")
     then format parsed = "cyclonedx" /\
          len (default (JArray []) (dict_get members "components")) =
            Ok (component_count parsed)
     else format parsed = "spdx" /\
          is_Some (dict_get members "spdxVersion") /\
          len (default (JArray []) (dict_get members "packages")) =
            Ok (component_count parsed)).
Proof.
  intros Hext Hparse. unfold parse_sbom in Hparse.
  destruct (utf8_decode content) as [text|] eqn:Hutf.
  2:{ unfold parse, _parse_json in Hparse. rewrite Hext, Hutf in Hparse.
      discriminate Hparse. }
  destruct (json_loads text) as [data|] eqn:Hjson.
  2:{ unfold parse, _parse_json in Hparse. rewrite Hext, Hutf, Hjson in Hparse.
      discriminate Hparse. }
  rewrite (parse_json_file _ _ _ _ Hext Hutf Hjson) in Hparse.
  assert (exists members, data = JObject members) as [members ->].
  { destruct (route_json data) as [call|e] eqn:Hroute; [|discriminate Hparse].
    cbn in Hparse.
    destruct (extract call) as [p|e] eqn:Hcall; [|discriminate Hparse].
    unfold route_json in Hroute.
    destruct data; try discriminate Hroute; eauto; exfalso.
    - (* a string *)
      cbn in Hroute.
      destruct (str_in "bomFormat" s); cbn in Hroute; [discriminate Hroute|].
      destruct (str_in "spdxVersion" s); cbn in Hroute; [|discriminate Hroute].
      injection Hroute as <-. discriminate Hcall.
    - (* a list *)
      cbn in Hroute.
      destruct (existsb (is_string "bomFormat") items); cbn in Hroute;
        [discriminate Hroute|].
      destruct (existsb (is_string "spdxVersion") items); cbn in Hroute;
        [|discriminate Hroute].
      injection Hroute as <-. discriminate Hcall. }
  exists text, members. split; [reflexivity|]. split; [exact Hjson|].
  rewrite route_json_object in Hparse.
  destruct (from_option (is_string "CycloneDX") false (dict_get members "bomFormat")).
  - cbn [result_bind result_catch extract] in Hparse.
    destruct (CycloneDXParser.parse_json (JObject members)) as [p|e] eqn:Hp;
      [|discriminate Hparse].
    injection Hparse as ->.
    apply cyclonedx_parse_json_ok in Hp.
    destruct Hp as (Hfmt & Hraw & listed & Hget & Hlen).
    cbn in Hget. injection Hget as <-. auto.
  - destruct (bool_decide (is_Some (dict_get members "spdxVersion"))) eqn:Hspdx;
      [|discriminate Hparse].
    apply bool_decide_eq_true_1 in Hspdx.
    cbn [result_bind result_catch extract] in Hparse.
    destruct (SPDXParser.parse_json (JObject members)) as [p|e] eqn:Hp;
      [|discriminate Hparse].
    injection Hparse as ->.
    apply spdx_parse_json_ok in Hp.
    destruct Hp as (Hfmt & Hraw & listed & Hget & Hlen).
    cbn in Hget. injection Hget as <-. auto.
Qed.

End extractor_facts.

Lemma stored_component_count_witness :
  celery_worker.count_components (H := ascii_str_lower)
    (extractors.stored (models.sbom_id examples.sbom_1) "bom.json" uploaded.parsed)
  = Ok 2.
Proof.
  exact (stored_component_count (H := ascii_str_lower) (H0 := uploaded.no_match)
           (sbom_parser.CycloneDXParser_parse_json uploaded.document)
           uploaded.parsed (models.sbom_id examples.sbom_1) "bom.json"
           ascii_lower_fixes eq_refl).
Defined.

Lemma parse_sbom_json_witness :
  exists text members,
    utf8_decode (Decoders := uploaded.decoders) "content" = Some text /\
    json_loads (Decoders := uploaded.decoders) text = Some (JObject members) /\
    extractors.raw_data uploaded.parsed = JObject members /\
    extractors.format uploaded.parsed = "cyclonedx" /\
    pyjson.len (default (JArray []) (pyjson.dict_get members "components")) = Ok 2.
Proof.
  destruct (parse_sbom_json (H := ascii_str_lower) (H0 := uploaded.decoders)
              (H1 := uploaded.no_match) "content" "bom.json" uploaded.parsed
              eq_refl eq_refl)
    as (text & members & Hutf & Hjson & Hraw & Hfmt).
  exists text, members. split; [exact Hutf|]. split; [exact Hjson|].
  split; [exact Hraw|].
  injection Hraw as <-. exact Hfmt.
Defined.
